(** * dna_array: 2-bit packing of DNA codes, and the FASTQ batch encoder

    A shallow embedding of [dna_array.c] (the bit-pack writer and reader)
    and of the FASTQ driver ([base_to_code], [process_fastq]), with the
    properties of the specification stated and proved over it.  The rest
    of the driver ([get_basename], [error_usage], [main]) and the example
    program are embedded as well, with properties read off the code.

    Conventions.
    - A [uint8_t] is a [Z]; a store into a [uint8_t] variable is written
      [to_uint8].  The C operators [&], [|], [<<], [>>] are [Z.land],
      [Z.lor], [Z.shiftl], [Z.shiftr].
    - A file is the list of its bytes; [fwrite] of one byte appends to it,
      [fread] of one byte takes the head of what is unread and leaves the
      destination untouched at end of file.
    - [size_t] loop counters are [nat]. *)

From Stdlib Require Import ZArith List Ascii String Lia.
From stdpp Require Import gmap strings list pretty.

Local Open Scope Z_scope.

Module DnaArray.

(** ** Machine bytes *)

Definition to_uint8 (z : Z) : Z := z mod 256.

(** ** The file system and the standard streams *)

Inductive event :=
  | Stdout (msg : string)     (* printf *)
  | Stderr (msg : string).    (* perror, fprintf(stderr, ...) *)

Record world := World {
  disk : gmap string (list Z);   (* the files that exist, with their bytes *)
  read_only : gset string;       (* paths on which fopen(.., "wb") fails *)
  console : list event           (* what was printed, oldest first *)
}.

Definition emit (e : event) (w : world) : world :=
  {| disk := disk w; read_only := read_only w; console := console w ++ [e] |}.

Definition store (filename : string) (bytes : list Z) (w : world) : world :=
  {| disk := <[filename := bytes]> (disk w); read_only := read_only w;
     console := console w |}.

Definition perror (msg : string) : event := Stderr msg.

(** ** [save_large_array_to_file]: the writer loop *)

Record writer := Writer {
  buffer : Z;            (* uint8_t buffer *)
  bit_position : Z;      (* int bit_position *)
  written : list Z       (* bytes passed to fwrite so far, oldest first *)
}.

Definition writer_init : writer :=
  {| buffer := 0; bit_position := 0; written := [] |}.

(** One iteration of [for (i = 0; i < size; ++i)] on element [a = arr[i]]. *)
Definition pack_step (s : writer) (a : Z) : writer :=
  let buffer' :=
    to_uint8 (Z.lor (buffer s) (Z.shiftl (Z.land a 3) (6 - bit_position s))) in
  let bit_position' := bit_position s + 2 in
  if bit_position' =? 8
  then {| buffer := 0; bit_position := 0; written := written s ++ [buffer'] |}
  else {| buffer := buffer'; bit_position := bit_position';
          written := written s |}.

Definition pack_loop (arr : list Z) (s : writer) : writer :=
  fold_left pack_step arr s.

(** The statement after the loop: [if (bit_position > 0) fwrite(&buffer)]. *)
Definition pack_flush (s : writer) : list Z :=
  if 0 <? bit_position s then written s ++ [buffer s] else written s.

(** The bytes the file holds when [save_large_array_to_file] closes it. *)
Definition pack (arr : list Z) : list Z :=
  pack_flush (pack_loop arr writer_init).

(** ** [read_large_array_from_file]: the reader loop *)

Record reader := Reader {
  rbuffer : Z;           (* uint8_t buffer *)
  rbit_position : Z;     (* int bit_position *)
  unread : list Z;       (* bytes of the file not yet read *)
  decoded : list Z       (* arr[0..i), in index order *)
}.

Definition reader_init (file : list Z) : reader :=
  {| rbuffer := 0; rbit_position := 0; unread := file; decoded := [] |}.

(** [fread(&buffer, 1, 1, file)]: at end of file nothing is stored. *)
Definition fread1 (s : reader) : reader :=
  match unread s with
  | [] => s
  | b :: rest =>
      {| rbuffer := to_uint8 b; rbit_position := rbit_position s;
         unread := rest; decoded := decoded s |}
  end.

(** One iteration of the reader's [for] loop. *)
Definition unpack_step (s : reader) : reader :=
  let s1 := if rbit_position s =? 0 then fread1 s else s in
  let code :=
    to_uint8 (Z.land (Z.shiftr (rbuffer s1) (6 - rbit_position s1)) 3) in
  let bit_position' := rbit_position s1 + 2 in
  {| rbuffer := rbuffer s1;
     rbit_position := if bit_position' =? 8 then 0 else bit_position';
     unread := unread s1;
     decoded := decoded s1 ++ [code] |}.

Fixpoint unpack_loop (size : nat) (s : reader) : reader :=
  match size with
  | O => s
  | S k => unpack_loop k (unpack_step s)
  end.

(** The [size] values [read_large_array_from_file] stores into [arr]. *)
Definition unpack (file : list Z) (size : nat) : list Z :=
  decoded (unpack_loop size (reader_init file)).

(** ** The two entry points, on the file system *)

Definition save_large_array_to_file
    (w : world) (filename : string) (arr : list Z) : world :=
  if decide (filename ∈ read_only w)
  then emit (perror "Failed to open file") w
  else store filename (pack arr) w.

(** [arr] is the caller's array; its first [size] cells are overwritten. *)
Definition read_large_array_from_file
    (w : world) (filename : string) (arr : list Z) (size : nat)
    : world * list Z :=
  match disk w !! filename with
  | None => (emit (perror "Failed to open file") w, arr)
  | Some file => (w, unpack file size ++ drop size arr)
  end.

(** ** Codes and the byte a group of codes packs to *)

Definition is_code (c : Z) : Prop := 0 <= c <= 3.

(** [(c0<<6)|(c1<<4)|(c2<<2)|c3] *)
Definition byte4 (c0 c1 c2 c3 : Z) : Z :=
  Z.lor (Z.lor (Z.lor (Z.shiftl c0 6) (Z.shiftl c1 4)) (Z.shiftl c2 2)) c3.

(** [(b >> (6 - 2*k)) & 3]: the code in slot [k] of byte [b]. *)
Definition slot (b : Z) (k : Z) : Z := Z.land (Z.shiftr b (6 - 2 * k)) 3.

(** The packed layout as the specification words it (not taken from the
    code): one byte [(c0<<6)|(c1<<4)|(c2<<2)|c3] per four codes, and one
    last byte with the remaining one to three codes in the high bit pairs
    and zeros below. *)
Fixpoint pack_spec (codes : list Z) : list Z :=
  match codes with
  | [] => []
  | [c0] => [byte4 c0 0 0 0]
  | [c0; c1] => [byte4 c0 c1 0 0]
  | [c0; c1; c2] => [byte4 c0 c1 c2 0]
  | c0 :: c1 :: c2 :: c3 :: rest => byte4 c0 c1 c2 c3 :: pack_spec rest
  end.

(** The writer's state holds bytes only. *)
Definition is_byte_inv (s : writer) : Prop :=
  Forall (fun b => 0 <= b <= 255) (written s) /\ 0 <= buffer s <= 255.

End DnaArray.


Module Fastq.
Import DnaArray.

Definition MAX_LINE_LENGTH : nat := 1024.
Definition EXIT_FAILURE : Z := 1.

Definition NUL : ascii := "000"%char.
Definition LF : ascii := "010"%char.
Definition CR : ascii := "013"%char.

(** ** [base_to_code] *)

Definition base_to_code (base : ascii) : Z :=
  match base with
  | "A"%char => 0
  | "C"%char => 1
  | "G"%char => 2
  | "T"%char => 3
  | _ => 255
  end.

(** The valid symbols, as the specification names them. *)
Definition alphabet : list ascii := ["A"; "C"; "G"; "T"]%char.

(** ** C strings

    A [char] buffer is modelled by the characters before its terminating
    NUL.  Reading index [length s] yields the terminator. *)

Definition char_at (s : list ascii) (i : nat) : ascii := nth i s NUL.

Definition ascii_in (c : ascii) (set : list ascii) : bool :=
  existsb (Ascii.eqb c) set.

(** [strcspn(s, reject)] *)
Fixpoint strcspn (s reject : list ascii) : nat :=
  match s with
  | [] => O
  | c :: rest => if ascii_in c reject then O else S (strcspn rest reject)
  end.

(** [strchr(s, c) != NULL], for [c] other than NUL *)
Definition strchr (s : list ascii) (c : ascii) : bool := ascii_in c s.

Definition strlen (s : list ascii) : nat := length s.

(** What the string functions see of a buffer [gzgets] filled with [chunk]. *)
Definition c_str (chunk : list ascii) : list ascii :=
  take (strcspn chunk [NUL]) chunk.

(** ** [gzgets]

    [gzgets(file, buf, len)] copies characters until [len - 1] are copied,
    a newline is copied, or the stream ends; it returns NULL and leaves
    [buf] untouched when no character could be read. *)

Fixpoint gzgets_copy (room : nat) (stream : list ascii)
    : list ascii * list ascii :=
  match room, stream with
  | O, _ => ([], stream)
  | S _, [] => ([], [])
  | S room', c :: rest =>
      if Ascii.eqb c LF then ([c], rest)
      else let '(line, rest') := gzgets_copy room' rest in (c :: line, rest')
  end.

Definition gzgets (len : nat) (stream : list ascii)
    : option (list ascii * list ascii) :=
  match stream with
  | [] => None
  | _ :: _ => Some (gzgets_copy (len - 1) stream)
  end.

(** ** One record of [process_fastq]'s loop *)

(** [for (i = 0; i < kmer_length; ++i)]: the codes appended to
    [encoded_reads], or [None] when [base_to_code] returned 255 and the
    process exits. *)
Fixpoint encode_bases (todo i : nat) (seq : list ascii) (codes : list Z)
    : option (list Z) :=
  match todo with
  | O => Some codes
  | S todo' =>
      let code := base_to_code (char_at seq i) in
      if code =? 255 then None
      else encode_bases todo' (S i) seq (codes ++ [code])
  end.

Inductive record_result :=
  | Skipped                        (* continue *)
  | Invalid_base                   (* fprintf(stderr, ...); exit(EXIT_FAILURE) *)
  | Encoded (codes : list Z).      (* kmer_length codes appended *)

(** [seq[strcspn(seq, "\r\n")] = '\0'] *)
Definition chomp (seq : list ascii) : list ascii :=
  take (strcspn seq [CR; LF]) seq.

(** The test of the [if (...) continue;] statement. *)
Definition prefilter_skips (seq : list ascii) : bool :=
  (strlen seq <? 32)%nat || strchr seq "N"%char.

(** The loop body after the four [gzgets] calls, [seq] holding the string
    the second call left in the buffer. *)
Definition handle_record (kmer_length : nat) (seq : list ascii)
    : record_result :=
  let seq := chomp seq in
  if prefilter_skips seq then Skipped
  else match encode_bases kmer_length 0 seq [] with
       | None => Invalid_base
       | Some codes => Encoded codes
       end.

(** ** The [while (gzgets(file, id, sizeof(id)))] loop

    [seq] is the string in the [seq] buffer, [None] before anything was
    stored in it.  [encoded_reads] is the list of the codes stored so far
    (the capacity of the allocated block is not modelled), so
    [total_bases] is its length. *)

Inductive loop_result :=
  | Finished (encoded_reads : list Z)   (* loop left, by EOF or by break *)
  | Aborted (seq : list ascii)          (* exit(EXIT_FAILURE) in the loop *)
  | Uninitialised                       (* seq read before any store *)
  | Out_of_fuel.

(** A [gzgets] whose result is ignored: the buffer keeps its old string
    when the stream is at its end. *)
Definition gzgets_into (buf : option (list ascii)) (stream : list ascii)
    : option (list ascii) * list ascii :=
  match gzgets MAX_LINE_LENGTH stream with
  | None => (buf, stream)
  | Some (chunk, rest) => (Some (c_str chunk), rest)
  end.

Fixpoint fastq_loop (fuel : nat) (kmer_length num_reads : nat)
    (stream : list ascii) (seq : option (list ascii))
    (encoded_reads : list Z) (total_reads : nat) : loop_result :=
  match fuel with
  | O => Out_of_fuel
  | S fuel' =>
      match gzgets MAX_LINE_LENGTH stream with
      | None => Finished encoded_reads
      | Some (_, stream1) =>
          let '(seq1, stream2) := gzgets_into seq stream1 in
          let '(_, stream3) := gzgets_into None stream2 in
          let '(_, stream4) := gzgets_into None stream3 in
          match seq1 with
          | None => Uninitialised
          | Some seq_str =>
              match handle_record kmer_length seq_str with
              | Skipped =>
                  fastq_loop fuel' kmer_length num_reads stream4
                    (Some (chomp seq_str)) encoded_reads total_reads
              | Invalid_base => Aborted (chomp seq_str)
              | Encoded codes =>
                  let total_reads' := S total_reads in
                  if (total_reads' =? num_reads)%nat
                  then Finished (encoded_reads ++ codes)
                  else fastq_loop fuel' kmer_length num_reads stream4
                         (Some (chomp seq_str)) (encoded_reads ++ codes)
                         total_reads'
              end
          end
      end
  end.

(** ** [process_fastq] *)

Inductive outcome :=
  | Returned (w : world) (ret : nat)
  | Exited (w : world) (status : Z)
  | Undefined.

Definition newline : string := String LF EmptyString.

(** The statements after the loop, and the [exit] taken inside it. *)
Definition after_loop (w : world) (output_file : string) (r : loop_result)
    : outcome :=
  match r with
  | Finished encoded_reads =>
      Returned (save_large_array_to_file w output_file encoded_reads)
               (length encoded_reads)           (* return total_bases *)
  | Aborted seq =>
      Exited (emit (Stderr ("Invalid base in sequence: " +:+
                            string_of_list_ascii seq +:+ newline)) w)
             EXIT_FAILURE
  | Uninitialised => Undefined
  | Out_of_fuel => Undefined
  end.

(** Every iteration consumes at least one character, so the loop is given
    more rounds than the text has characters. *)
Definition read_records (kmer_length num_reads : nat) (text : list ascii)
    : loop_result :=
  fastq_loop (S (length text)) kmer_length num_reads text None [] 0.

Section Driver.

(** The text zlib yields for the bytes of a file (gzip or plain). *)
Variable gz_text : list Z -> list ascii.

Definition process_fastq (w : world) (input_file output_file : string)
    (num_reads kmer_length : nat) : outcome :=
  if decide (is_Some (disk w !! output_file))      (* access(.., F_OK) == 0 *)
  then Returned
         (emit (Stdout ("Output file `" +:+ output_file +:+
                        "` exists, skip it." +:+ newline)) w) 0
  else
    match disk w !! input_file with                (* gzopen *)
    | None => Exited (emit (perror "Failed to open FASTQ file") w) EXIT_FAILURE
    | Some gz =>
        after_loop w output_file
          (read_records kmer_length num_reads (gz_text gz))
    end.

End Driver.

(** ** Sample inputs *)

Definition line_of (s : string) : list ascii := list_ascii_of_string s ++ [LF].

(** A 32-character symbol line whose first character is lowercase. *)
Definition lowercase_read : list ascii :=
  list_ascii_of_string "aCGTACGTACGTACGTACGTACGTACGTACGT".

(** An 8-character symbol line over the alphabet. *)
Definition short_read : list ascii := list_ascii_of_string "ACGTACGT".

(** A 32-character symbol line over the alphabet. *)
Definition good_read : list ascii :=
  list_ascii_of_string "ACGTACGTACGTACGTACGTACGTACGTACGT".

Definition fastq_record (id seq : list ascii) : list ascii :=
  id ++ [LF] ++ seq ++ [LF] ++ line_of "+" ++ line_of "IIII".

(** A plain-text file is read as it is. *)
Definition plain_text (bytes : list Z) : list ascii :=
  map (fun b => ascii_of_N (Z.to_N b)) bytes.

Definition bytes_of (text : list ascii) : list Z :=
  map (fun c => Z.of_N (N_of_ascii c)) text.

Definition sample_world (text : list ascii) : world :=
  {| disk := {[ "reads.fq" := bytes_of text ]};
     read_only := ∅; console := [] |}.

Definition read_id : list ascii := list_ascii_of_string "@r1".

(** One good record on disk. *)
Definition good_world : world := sample_world (fastq_record read_id good_read).


(** One record with a lowercase base on disk. *)
Definition lowercase_world : world :=
  sample_world (fastq_record read_id lowercase_read).

(** ** [get_basename] *)

Definition SLASH : ascii := "/"%char.
Definition BACKSLASH : ascii := "092"%char.

(** [strrchr(s, c)]: the offset of the last [c] in [s], [None] for NULL. *)
Fixpoint strrchr (s : list ascii) (c : ascii) : option nat :=
  match s with
  | [] => None
  | x :: rest =>
      match strrchr rest c with
      | Some i => Some (S i)
      | None => if Ascii.eqb x c then Some O else None
      end
  end.

Definition get_basename (file_path : list ascii) : list ascii :=
  let base :=
    match strrchr file_path SLASH with
    | Some i => Some i
    | None => strrchr file_path BACKSLASH      (* if (!base) *)
    end in
  match base with
  | Some i => drop (S i) file_path             (* base + 1 *)
  | None => file_path
  end.

(** Sample paths. *)
Definition unix_dir : list ascii := list_ascii_of_string "data/run1".
Definition windows_dir : list ascii := list_ascii_of_string "C:\data".
Definition file_name : list ascii := list_ascii_of_string "reads.fq.gz".

(** ** Well-formed FASTQ text *)

Record entry := Entry {
  e_id : list ascii;
  e_seq : list ascii;
  e_plus : list ascii;
  e_qual : list ascii
}.

(** The four lines of a record, each ended by a line feed. *)
Definition entry_text (e : entry) : list ascii :=
  e_id e ++ LF :: e_seq e ++ LF :: e_plus e ++ LF :: e_qual e ++ [LF].

Definition fastq_text (es : list entry) : list ascii :=
  flat_map entry_text es.

(** A line [gzgets] returns whole: no line feed inside, and short enough
    for the buffer. *)
Definition whole_line (l : list ascii) : Prop :=
  (LF ∉ l) /\ (length l + 1 < MAX_LINE_LENGTH)%nat.

(** A symbol line the string functions see whole. *)
Definition plain_symbols (l : list ascii) : Prop :=
  (NUL ∉ l) /\ (CR ∉ l).

Definition whole_entry (e : entry) : Prop :=
  whole_line (e_id e) /\ whole_line (e_seq e) /\ plain_symbols (e_seq e) /\
  whole_line (e_plus e) /\ whole_line (e_qual e).

(** The record passes the [if (...) continue;] test. *)
Definition accepted (e : entry) : bool := negb (prefilter_skips (e_seq e)).

(** The codes of the first [kmer_length] symbols of a record. *)
Definition entry_codes (kmer_length : nat) (e : entry) : list Z :=
  map base_to_code (take kmer_length (e_seq e)).

(** A record that, if it passes the test, has [kmer_length] symbols to
    encode, all of A, C, G, T. *)
Definition encodable (kmer_length : nat) (e : entry) : Prop :=
  accepted e = true ->
  (kmer_length <= length (e_seq e))%nat /\
  Forall (fun c => c ∈ alphabet) (take kmer_length (e_seq e)).

(** A 32-character symbol line with an N. *)
Definition n_read : list ascii :=
  list_ascii_of_string "ACGTNCGTACGTACGTACGTACGTACGTACGT".

(** A short record, a good one, and one with an N. *)
Definition sample_entries : list entry :=
  [ Entry read_id short_read (list_ascii_of_string "+")
      (list_ascii_of_string "IIIIIIII");
    Entry read_id good_read (list_ascii_of_string "+") good_read;
    Entry read_id n_read (list_ascii_of_string "+") good_read ].

End Fastq.

Module Cli.
Import DnaArray Fastq.

(** ** [main] of the FASTQ encoder: the command line *)

Definition EXIT_SUCCESS : nat := 0.

Record options := Options {
  input_file : option string;     (* NULL until set *)
  fastq_file : option string;
  log_file : option string;
  output_file : option string;
  num_reads : Z;                  (* size_t *)
  kmer_length : Z                 (* size_t *)
}.

Definition initial_options : options :=
  {| input_file := None; fastq_file := None; log_file := None;
     output_file := None; num_reads := 1000000; kmer_length := 32 |}.

(** An [int] stored into a [size_t]. *)
Definition to_size_t (z : Z) : Z := z mod 2 ^ 64.

Definition usage_lines : list string :=
  [ "Usage:   dna_array_fastq [options]";
    "Example: dna_array_fastq -o out.bin -k 32 -n 1000000 -i input.txt";
    "Options:";
    "  -o <FILE>   output file";
    "  -l <FILE>   log file if `-i` is set";
    "  -i <FILE>   text file storing fastq files - one per line";
    "  -q <FILE>   fastq file, if set overwrite `-i`";
    "  -n <int>    number of reads (default: int(1e6))";
    "  -k <int>    kmer length to clip (default: 32)" ].

(** [error_usage]: nine lines on stderr, then [exit(EXIT_FAILURE)]. *)
Definition error_usage (w : world) : outcome :=
  Exited (fold_left (fun w l => emit (Stderr (l +:+ newline)) w) usage_lines w)
         EXIT_FAILURE.

(** [s[i]], the terminator included. *)
Definition string_at (s : string) (i : nat) : ascii :=
  match String.get i s with
  | Some c => c
  | None => NUL
  end.

(** The letters of the options. *)
Definition option_letters : list ascii := ["o"; "q"; "i"; "n"; "k"; "l"]%char.

(** The argument [-c]. *)
Definition flag_of (c : ascii) : string := String "-" (String c EmptyString).

Section CommandLine.

(** The C library's [atoi]. *)
Variable atoi : string -> Z.

(** The chain [if (argv[i][1] == 'o') ... else { error_usage(); }]. *)
Definition set_option (letter : ascii) (value : string) (o : options)
    : option options :=
  if Ascii.eqb letter "o" then
    Some {| input_file := input_file o; fastq_file := fastq_file o;
            log_file := log_file o; output_file := Some value;
            num_reads := num_reads o; kmer_length := kmer_length o |}
  else if Ascii.eqb letter "q" then
    Some {| input_file := input_file o; fastq_file := Some value;
            log_file := log_file o; output_file := output_file o;
            num_reads := num_reads o; kmer_length := kmer_length o |}
  else if Ascii.eqb letter "i" then
    Some {| input_file := Some value; fastq_file := fastq_file o;
            log_file := log_file o; output_file := output_file o;
            num_reads := num_reads o; kmer_length := kmer_length o |}
  else if Ascii.eqb letter "n" then
    Some {| input_file := input_file o; fastq_file := fastq_file o;
            log_file := log_file o; output_file := output_file o;
            num_reads := to_size_t (atoi value);
            kmer_length := kmer_length o |}
  else if Ascii.eqb letter "k" then
    Some {| input_file := input_file o; fastq_file := fastq_file o;
            log_file := log_file o; output_file := output_file o;
            num_reads := num_reads o;
            kmer_length := to_size_t (atoi value) |}
  else if Ascii.eqb letter "l" then
    Some {| input_file := input_file o; fastq_file := fastq_file o;
            log_file := Some value; output_file := output_file o;
            num_reads := num_reads o; kmer_length := kmer_length o |}
  else None.

(** [for (int i = 1; i < argc; i+=2)] over [argv[1..]]; [None] when
    [error_usage] is called. *)
Fixpoint parse_args (args : list string) (o : options) : option options :=
  match args with
  | [] => Some o
  | [_] => None                                   (* i + 1 >= argc *)
  | flag :: value :: rest =>
      if negb (Ascii.eqb (string_at flag 0) "-") then None
      else if negb (String.length flag =? 2)%nat then None
      else match set_option (string_at flag 1) value o with
           | Some o' => parse_args rest o'
           | None => None
           end
  end.

End CommandLine.

(** ** [main]: the batch over a list of FASTQ files *)

Definition QUOTE : ascii := "034"%char.

Definition header : list ascii :=
  list_ascii_of_string "file_path,total_base" ++ [LF].

(** One line of the log, [fprintf(fout, "\"%s\",%ld\n", out, total_bases)]. *)
Definition row (out : list ascii) (total_bases : nat) : list ascii :=
  QUOTE :: out ++ QUOTE :: list_ascii_of_string ("," +:+ pretty total_bases)
    ++ [LF].

(** What reaches an open file when its stream is flushed. *)
Definition append_file (path : string) (text : list ascii) (w : world)
    : world :=
  store path (default [] (disk w !! path) ++ bytes_of text) w.

(** [sprintf(out, "%s%s", get_basename(buffer), ".bin")] *)
Definition out_name (buffer : list ascii) : list ascii :=
  get_basename buffer ++ list_ascii_of_string ".bin".

Section Batch.

Variable gz_text : list Z -> list ascii.

(** The [while (fgets(buffer, sizeof(buffer), fp))] loop.  [fgets] reads
    like [gzgets], into a buffer of the same 1024 bytes.  [pending] is
    what was printed to the log and not yet flushed; the stream is
    flushed by [fflush], by [fclose] and by [exit]. *)
Fixpoint batch_loop (fuel : nat) (log : string) (N K : nat) (w : world)
    (pending stream : list ascii) : outcome :=
  match fuel with
  | O => Undefined
  | S fuel' =>
      match gzgets MAX_LINE_LENGTH stream with
      | None => Returned (append_file log pending w) EXIT_SUCCESS
      | Some (chunk, rest) =>
          let buffer := chomp (c_str chunk) in
          let out := out_name buffer in
          match process_fastq gz_text w (string_of_list_ascii buffer)
                  (string_of_list_ascii out) N K with
          | Returned w' total_bases =>
              batch_loop fuel' log N K
                (append_file log (pending ++ row out total_bases) w') [] rest
          | Exited w' status => Exited (append_file log pending w') status
          | Undefined => Undefined
          end
      end
  end.

Variable atoi : string -> Z.

Definition main (w : world) (argv : list string) : outcome :=
  if (length argv <? 3)%nat then error_usage w
  else
    match parse_args atoi (tail argv) initial_options with
    | None => error_usage w
    | Some o =>
        let N := Z.to_nat (num_reads o) in
        let K := Z.to_nat (kmer_length o) in
        match fastq_file o with
        | Some fastq =>
            match output_file o with
            | None => Undefined                 (* a NULL output path *)
            | Some out =>
                match process_fastq gz_text w fastq out N K with
                | Returned w' _ => Returned w' EXIT_SUCCESS
                | Exited w' status => Exited w' status
                | Undefined => Undefined
                end
            end
        | None =>
            match log_file o with
            | None =>
                Exited (emit (perror "You must provide a log_file via `-l`.")
                          w) EXIT_FAILURE
            | Some log =>
                if decide (is_Some (disk w !! log)) then
                  Returned (emit (Stdout ("Log file `" +:+ log +:+
                                          "` exists, exit." +:+ newline)) w) 0
                else
                  match input_file o with
                  | None => Undefined           (* fopen(NULL, "r") *)
                  | Some list_file =>
                      match disk w !! list_file with
                      | None => Undefined       (* fgets on a NULL stream *)
                      | Some bytes =>
                          if decide (log ∈ read_only w)
                          then Undefined        (* fprintf on a NULL stream *)
                          else batch_loop (S (length bytes)) log N K
                                 (store log [] w) header (plain_text bytes)
                      end
                  end
            end
        end
    end.

End Batch.

(** ** The list file and the log, as texts *)

(** A list file of one path per line. *)
Definition list_text (paths : list (list ascii)) : list ascii :=
  flat_map (fun p => p ++ [LF]) paths.

(** A path [fgets] and the string functions see whole. *)
Definition whole_path (p : list ascii) : Prop :=
  whole_line p /\ plain_symbols p.

(** The rows of the log for the given output names and counts. *)
Definition manifest (entries : list (list ascii * nat)) : list ascii :=
  flat_map (fun e => row (fst e) (snd e)) entries.

(** The command line selects the batch, the log does not exist yet and
    can be created, and the list file holds [bytes]. *)
Definition batch_mode (atoi : string -> Z) (w : world) (argv : list string)
    (log : string) (bytes : list Z) : Prop :=
  exists (o : options) (list_file : string),
    (3 <= length argv)%nat /\
    parse_args atoi (tail argv) initial_options = Some o /\
    fastq_file o = None /\ log_file o = Some log /\
    input_file o = Some list_file /\
    disk w !! list_file = Some bytes /\
    disk w !! log = None /\ (log ∉ read_only w).

Definition sample_argv : list string :=
  ["dna_array_fastq"; "-i"; "list.txt"; "-l"; "log.csv"; "-n"; "1"].

(** Sample: a list file naming the FASTQ file of [good_world]. *)
Definition list_world : world :=
  store "list.txt" (bytes_of (list_text [list_ascii_of_string "reads.fq"]))
    good_world.

(** Sample: a list file naming a file that does not exist. *)
Definition missing_world : world :=
  store "list.txt" (bytes_of (list_text [list_ascii_of_string "none.fq"]))
    good_world.

(** A stand-in for [atoi] on strings of decimal digits. *)
Fixpoint digits_value (s : string) (acc : Z) : Z :=
  match s with
  | EmptyString => acc
  | String c rest =>
      let d := Z.of_N (N_of_ascii c) - 48 in
      if (0 <=? d) && (d <=? 9) then digits_value rest (10 * acc + d)
      else acc
  end.

Definition sample_atoi (s : string) : Z := digits_value s 0.

End Cli.

Module Example.
Import DnaArray Fastq.

(** ** [main] of [dna_array_example.c]

    The program fills an array with [rand() % 4], saves it, reads it
    back into a second array and compares the two.  An allocation that
    fails is not modelled. *)

Definition size : nat := Z.to_nat 32000000.
Definition output_large : string := "output_large.bin".

Section Main.

(** [rand k] is what the k-th call of [rand()] returns, in [0, RAND_MAX];
    [fresh k] is what cell [k] of the block [malloc] returns for
    [recovered_arr] holds. *)
Variable rand : nat -> N.
Variable fresh : nat -> Z.

(** [arr[i] = rand() % 4] *)
Definition fill (n : nat) : list Z :=
  map (fun i => to_uint8 (Z.rem (Z.of_N (rand i)) 4)) (seq 0 n).

Definition uninitialised (n : nat) : list Z :=
  map (fun i => to_uint8 (fresh i)) (seq 0 n).

(** [for (i = 0; i < 10; i++) printf("%d ", a[i]); printf("\n");] *)
Definition print_first_10 (a : list Z) (w : world) : world :=
  emit (Stdout newline)
    (fold_left (fun w v => emit (Stdout (pretty v +:+ " ")) w) (take 10 a) w).

(** The comparison loop: the first index at which the arrays differ. *)
Fixpoint first_mismatch (i : nat) (arr recovered : list Z)
    : option (nat * Z * Z) :=
  match arr, recovered with
  | a :: arr', r :: recovered' =>
      if a =? r then first_mismatch (S i) arr' recovered'
      else Some (i, a, r)
  | _, _ => None
  end.

Definition main (w : world) : world * Z :=
  let arr := fill size in
  let w := print_first_10 arr w in
  let w := save_large_array_to_file w output_large arr in
  let '(w, recovered_arr) :=
    read_large_array_from_file w output_large (uninitialised size) size in
  let mismatch := first_mismatch 0 arr recovered_arr in
  let w :=
    match mismatch with
    | Some (i, a, r) =>
        emit (Stdout ("Mismatch at index " +:+ pretty i +:+ ": " +:+
                      pretty a +:+ " != " +:+ pretty r +:+ newline)) w
    | None => w
    end in
  let w := print_first_10 recovered_arr w in
  let w :=
    match mismatch with
    | None => emit (Stdout ("Arrays match perfectly!" +:+ newline)) w
    | Some _ => w
    end in
  (w, 0).

End Main.

End Example.

(** * Properties of the bit-pack writer and reader *)

Import DnaArray.

(** ** Bit-level facts *)

Lemma land3_mod (a : Z) : Z.land a 3 = a mod 4.
Proof. change 3 with (Z.ones 2). now rewrite Z.land_ones. Qed.

Lemma land3_is_code (a : Z) : is_code (Z.land a 3).
Proof.
  unfold is_code. rewrite land3_mod.
  pose proof (Z.mod_pos_bound a 4). lia.
Qed.

Lemma land3_code (c : Z) : is_code c -> Z.land c 3 = c.
Proof.
  intros Hc. rewrite land3_mod. apply Z.mod_small.
  unfold is_code in Hc. lia.
Qed.

Lemma land3_idem (a : Z) : Z.land (Z.land a 3) 3 = Z.land a 3.
Proof. apply land3_code, land3_is_code. Qed.

Lemma is_code_cases (c : Z) : is_code c -> c = 0 \/ c = 1 \/ c = 2 \/ c = 3.
Proof. unfold is_code. lia. Qed.

Lemma to_uint8_code (c : Z) : is_code c -> to_uint8 c = c.
Proof. unfold is_code, to_uint8. intros. apply Z.mod_small. lia. Qed.

(** The reader only looks at bits 0..7 of the byte it holds. *)
Lemma slot_to_uint8 (b k : Z) : 0 <= k <= 3 -> slot (to_uint8 b) k = slot b k.
Proof.
  intros Hk. unfold slot, to_uint8. apply Z.bits_inj'. intros n Hn.
  rewrite !Z.land_spec, !Z.shiftr_spec by lia.
  destruct (Z.ltb_spec n 2) as [Hlt | Hge].
  - change 256 with (2 ^ 8). rewrite Z.mod_pow2_bits_low by lia. reflexivity.
  - assert (Z.testbit 3 n = false) as ->.
    { change 3 with (Z.ones 2). apply Z.ones_spec_high. lia. }
    now rewrite !andb_false_r.
Qed.

Lemma slot_is_code (b k : Z) : is_code (slot b k).
Proof. apply land3_is_code. Qed.

Ltac code_cases H :=
  destruct (is_code_cases _ H) as [?|[?|[?|?]]]; subst.

(** Each slot of a packed byte gives back the code put there. *)
Lemma slot_byte4 (c0 c1 c2 c3 : Z) :
  is_code c0 -> is_code c1 -> is_code c2 -> is_code c3 ->
  slot (byte4 c0 c1 c2 c3) 0 = c0 /\ slot (byte4 c0 c1 c2 c3) 1 = c1 /\
  slot (byte4 c0 c1 c2 c3) 2 = c2 /\ slot (byte4 c0 c1 c2 c3) 3 = c3.
Proof.
  intros H0 H1 H2 H3.
  code_cases H0; code_cases H1; code_cases H2; code_cases H3;
    repeat split; reflexivity.
Qed.

(** ** Induction on lists, four elements at a time *)

Lemma list_ind4 {A : Type} (P : list A -> Prop) :
  P [] -> (forall a, P [a]) -> (forall a b, P [a; b]) ->
  (forall a b c, P [a; b; c]) ->
  (forall a b c d l, P l -> P (a :: b :: c :: d :: l)) ->
  forall l, P l.
Proof.
  intros H0 H1 H2 H3 H4.
  fix IH 1. intros [|a [|b [|c [|d l]]]].
  - exact H0.
  - apply H1.
  - apply H2.
  - apply H3.
  - apply H4, IH.
Qed.

(** ** The writer loop *)

Lemma pack_step_mask (s : writer) (a : Z) :
  pack_step s (Z.land a 3) = pack_step s a.
Proof. unfold pack_step. now rewrite land3_idem. Qed.

Lemma pack_loop_mask (arr : list Z) (s : writer) :
  pack_loop (map (fun a => Z.land a 3) arr) s = pack_loop arr s.
Proof.
  revert s. induction arr as [|a arr IH]; intros s; [reflexivity|].
  cbn [map pack_loop fold_left]. rewrite pack_step_mask. apply IH.
Qed.

(** The bytes already written are only ever extended. *)
Lemma pack_step_written (a b p : Z) (w : list Z) :
  pack_step (Writer b p w) a =
  let s := pack_step (Writer b p []) a in
  Writer (buffer s) (bit_position s) (w ++ written s).
Proof.
  unfold pack_step. cbn [buffer bit_position written].
  destruct (p + 2 =? 8); cbn [buffer bit_position written].
  - reflexivity.
  - now rewrite app_nil_r.
Qed.

Lemma pack_loop_written (arr : list Z) (b p : Z) (w : list Z) :
  pack_loop arr (Writer b p w) =
  let s := pack_loop arr (Writer b p []) in
  Writer (buffer s) (bit_position s) (w ++ written s).
Proof.
  revert b p w. induction arr as [|a arr IH]; intros b p w.
  - cbn. now rewrite app_nil_r.
  - change (pack_loop (a :: arr) ?s) with (pack_loop arr (pack_step s a)).
    rewrite pack_step_written.
    destruct (pack_step (Writer b p []) a) as [b' p' w'].
    cbn [buffer bit_position written]. cbn zeta.
    rewrite (IH b' p' (w ++ w')), (IH b' p' w').
    cbn [buffer bit_position written]. cbn zeta. now rewrite app_assoc.
Qed.

Lemma pack_loop_group_codes (c0 c1 c2 c3 : Z) (w : list Z) :
  is_code c0 -> is_code c1 -> is_code c2 -> is_code c3 ->
  pack_loop [c0; c1; c2; c3] (Writer 0 0 w) =
  Writer 0 0 (w ++ [byte4 c0 c1 c2 c3]).
Proof.
  intros H0 H1 H2 H3.
  code_cases H0; code_cases H1; code_cases H2; code_cases H3; reflexivity.
Qed.

Lemma pack_loop_group (c0 c1 c2 c3 : Z) (w : list Z) :
  pack_loop [c0; c1; c2; c3] (Writer 0 0 w) =
  Writer 0 0
    (w ++ [byte4 (Z.land c0 3) (Z.land c1 3) (Z.land c2 3) (Z.land c3 3)]).
Proof.
  rewrite <- pack_loop_mask. cbn [map].
  apply pack_loop_group_codes; apply land3_is_code.
Qed.

Lemma pack_loop_cons4 (c0 c1 c2 c3 : Z) (rest : list Z) :
  pack_loop (c0 :: c1 :: c2 :: c3 :: rest) writer_init =
  let s := pack_loop rest writer_init in
  Writer (buffer s) (bit_position s)
    (byte4 (Z.land c0 3) (Z.land c1 3) (Z.land c2 3) (Z.land c3 3)
       :: written s).
Proof.
  change (c0 :: c1 :: c2 :: c3 :: rest) with ([c0; c1; c2; c3] ++ rest).
  unfold pack_loop at 1. rewrite fold_left_app.
  fold (pack_loop [c0; c1; c2; c3] writer_init). unfold writer_init at 1.
  rewrite pack_loop_group. fold (pack_loop rest).
  rewrite pack_loop_written. reflexivity.
Qed.

Lemma pack_cons4 (c0 c1 c2 c3 : Z) (rest : list Z) :
  pack (c0 :: c1 :: c2 :: c3 :: rest) =
  byte4 (Z.land c0 3) (Z.land c1 3) (Z.land c2 3) (Z.land c3 3) :: pack rest.
Proof.
  unfold pack. rewrite pack_loop_cons4. cbn zeta. unfold pack_flush.
  cbn [buffer bit_position written].
  now destruct (0 <? bit_position (pack_loop rest writer_init)).
Qed.

(** ** The reader loop *)

Lemma unpack_step_read (b x : Z) (u d : list Z) :
  unpack_step (Reader b 0 (x :: u) d) =
  Reader (to_uint8 x) 2 u (d ++ [slot x 0]).
Proof.
  unfold unpack_step, fread1. cbn [rbuffer rbit_position unread decoded Z.eqb].
  rewrite (to_uint8_code (Z.land _ 3)) by apply land3_is_code.
  rewrite <- (slot_to_uint8 x 0) by lia. reflexivity.
Qed.

Lemma unpack_step_eof (b : Z) (d : list Z) :
  unpack_step (Reader b 0 [] d) = Reader b 2 [] (d ++ [slot b 0]).
Proof.
  unfold unpack_step, fread1. cbn [rbuffer rbit_position unread decoded Z.eqb].
  rewrite (to_uint8_code (Z.land _ 3)) by apply land3_is_code. reflexivity.
Qed.

Lemma unpack_step_2 (b : Z) (u d : list Z) :
  unpack_step (Reader b 2 u d) = Reader b 4 u (d ++ [slot b 1]).
Proof.
  unfold unpack_step. cbn [rbuffer rbit_position unread decoded Z.eqb].
  rewrite (to_uint8_code (Z.land _ 3)) by apply land3_is_code. reflexivity.
Qed.

Lemma unpack_step_4 (b : Z) (u d : list Z) :
  unpack_step (Reader b 4 u d) = Reader b 6 u (d ++ [slot b 2]).
Proof.
  unfold unpack_step. cbn [rbuffer rbit_position unread decoded Z.eqb].
  rewrite (to_uint8_code (Z.land _ 3)) by apply land3_is_code. reflexivity.
Qed.

Lemma unpack_step_6 (b : Z) (u d : list Z) :
  unpack_step (Reader b 6 u d) = Reader b 0 u (d ++ [slot b 3]).
Proof.
  unfold unpack_step. cbn [rbuffer rbit_position unread decoded Z.eqb].
  rewrite (to_uint8_code (Z.land _ 3)) by apply land3_is_code. reflexivity.
Qed.

(** The codes already stored are only ever extended. *)
Lemma unpack_step_decoded (b p : Z) (u d : list Z) :
  unpack_step (Reader b p u d) =
  let s := unpack_step (Reader b p u []) in
  Reader (rbuffer s) (rbit_position s) (unread s) (d ++ decoded s).
Proof.
  unfold unpack_step, fread1. cbn [rbuffer rbit_position unread decoded].
  destruct (p =? 0); [destruct u|]; reflexivity.
Qed.

Lemma unpack_loop_decoded (n : nat) (b p : Z) (u d : list Z) :
  unpack_loop n (Reader b p u d) =
  let s := unpack_loop n (Reader b p u []) in
  Reader (rbuffer s) (rbit_position s) (unread s) (d ++ decoded s).
Proof.
  revert b p u d. induction n as [|n IH]; intros b p u d.
  - cbn. now rewrite app_nil_r.
  - cbn [unpack_loop]. rewrite unpack_step_decoded.
    destruct (unpack_step (Reader b p u [])) as [b' p' u' d'].
    cbn [rbuffer rbit_position unread decoded]. cbn zeta.
    rewrite (IH b' p' u' (d ++ d')), (IH b' p' u' d').
    cbn [rbuffer rbit_position unread decoded]. cbn zeta.
    now rewrite app_assoc.
Qed.

(** The first byte of the file serves the first four codes. *)
Lemma unpack_loop_first (n : nat) (b x : Z) (u : list Z) :
  (n <= 4)%nat ->
  decoded (unpack_loop n (Reader b 0 (x :: u) [])) =
  take n [slot x 0; slot x 1; slot x 2; slot x 3].
Proof.
  intros Hn.
  destruct n as [|[|[|[|[|n]]]]]; [reflexivity | .. | lia];
    cbn [unpack_loop];
    rewrite unpack_step_read, ?unpack_step_2, ?unpack_step_4, ?unpack_step_6,
      ?slot_to_uint8 by lia; reflexivity.
Qed.

Lemma unpack_loop_cons4 (n : nat) (b x : Z) (u : list Z) :
  decoded (unpack_loop (4 + n) (Reader b 0 (x :: u) [])) =
  slot x 0 :: slot x 1 :: slot x 2 :: slot x 3
    :: decoded (unpack_loop n (Reader (to_uint8 x) 0 u [])).
Proof.
  cbn [Nat.add unpack_loop].
  rewrite unpack_step_read, unpack_step_2, unpack_step_4, unpack_step_6,
    !slot_to_uint8 by lia.
  cbn [app]. now rewrite unpack_loop_decoded.
Qed.

(** Index arithmetic: element [4 + i] lives one byte after element [i]. *)
Lemma div4_step (i : nat) : ((4 + i) / 4 = S (i / 4))%nat.
Proof.
  replace (4 + i)%nat with (i + 1 * 4)%nat by lia.
  rewrite Nat.div_add by lia. lia.
Qed.

Lemma mod4_step (i : nat) : ((4 + i) mod 4 = i mod 4)%nat.
Proof.
  replace (4 + i)%nat with (i + 1 * 4)%nat by lia.
  now rewrite Nat.Div0.mod_add.
Qed.

Lemma unpack_loop_lookup (u : list Z) :
  forall (n i : nat) (b : Z),
    (i < n)%nat -> (i / 4 < length u)%nat ->
    decoded (unpack_loop n (Reader b 0 u [])) !! i =
    (fun x => slot x (Z.of_nat (i mod 4))) <$> u !! (i / 4)%nat.
Proof.
  induction u as [|x u IH]; intros n i b Hi Hlen; [cbn in Hlen; lia|].
  destruct (le_lt_dec n 4) as [Hn | Hn].
  - rewrite unpack_loop_first by exact Hn.
    destruct n as [|[|[|[|[|n]]]]]; try lia;
      destruct i as [|[|[|[|i]]]]; try lia; reflexivity.
  - replace n with (4 + (n - 4))%nat by lia. rewrite unpack_loop_cons4.
    destruct i as [|[|[|[|i]]]]; try reflexivity.
    change (S (S (S (S i)))) with (4 + i)%nat in Hlen |- *.
    rewrite div4_step in Hlen |- *. rewrite mod4_step.
    cbn [lookup list_lookup Nat.add].
    apply IH; [lia|]. cbn [length] in Hlen. lia.
Qed.

(** ** What the writer leaves behind *)

(** Reduces a goal about elements [a] that are only seen through
    [pack_loop] to the four values of [a & 3]. *)
Ltac mask_cases a :=
  let c := fresh "c" in
  let Hc := fresh "Hc" in
  generalize (land3_is_code a); generalize (Z.land a 3); intros c Hc;
  code_cases Hc.

Lemma pack_loop_state (arr : list Z) :
  let s := pack_loop arr writer_init in
  bit_position s = 2 * Z.of_nat (length arr mod 4) /\
  length (written s) = (length arr / 4)%nat /\
  Z.land (buffer s) (Z.ones (8 - bit_position s)) = 0.
Proof.
  induction arr as [|a|a b|a b c|a b c d l IH] using list_ind4.
  - repeat split.
  - rewrite <- pack_loop_mask. cbn [map]. mask_cases a; repeat split.
  - rewrite <- pack_loop_mask. cbn [map].
    mask_cases a; mask_cases b; repeat split.
  - rewrite <- pack_loop_mask. cbn [map].
    mask_cases a; mask_cases b; mask_cases c; repeat split.
  - rewrite pack_loop_cons4. cbn zeta in IH |- *.
    cbn [buffer bit_position written length].
    destruct IH as (Hp & Hw & Hz).
    change (S (S (S (S (length l))))) with (4 + length l)%nat.
    rewrite div4_step, mod4_step. repeat split; [exact Hp | lia | exact Hz].
Qed.

Lemma pack_length (arr : list Z) :
  length (pack arr) = ((length arr + 3) / 4)%nat.
Proof.
  induction arr as [|a|a b|a b c|a b c d l IH] using list_ind4;
    try reflexivity.
  rewrite pack_cons4.
  replace (length (a :: b :: c :: d :: l) + 3)%nat
    with (4 + (length l + 3))%nat by (cbn [length]; lia).
  rewrite div4_step. cbn [length]. now rewrite IH.
Qed.

Lemma pack_mask (arr : list Z) :
  pack (map (fun a => Z.land a 3) arr) = pack arr.
Proof. unfold pack. now rewrite pack_loop_mask. Qed.

Lemma pack_codes_spec (seq : list Z) :
  Forall is_code seq -> pack seq = pack_spec seq.
Proof.
  induction seq as [|a|a b|a b c|a b c d l IH] using list_ind4; intros H.
  - reflexivity.
  - inversion_clear H as [|? ? Ha _]. code_cases Ha; reflexivity.
  - inversion_clear H as [|? ? Ha H']. inversion_clear H' as [|? ? Hb _].
    code_cases Ha; code_cases Hb; reflexivity.
  - inversion_clear H as [|? ? Ha H']. inversion_clear H' as [|? ? Hb H''].
    inversion_clear H'' as [|? ? Hc _].
    code_cases Ha; code_cases Hb; code_cases Hc; reflexivity.
  - inversion_clear H as [|? ? Ha H']. inversion_clear H' as [|? ? Hb H''].
    inversion_clear H'' as [|? ? Hc H']. inversion_clear H' as [|? ? Hd Hl].
    rewrite pack_cons4, !land3_code by assumption.
    cbn [pack_spec]. now rewrite IH.
Qed.

(** ** Reading back what was written *)

Lemma unpack_pack_codes (seq : list Z) :
  Forall is_code seq ->
  forall b, decoded (unpack_loop (length seq) (Reader b 0 (pack seq) [])) = seq.
Proof.
  induction seq as [|a|a b|a b c|a b c d l IH] using list_ind4; intros H b0.
  - reflexivity.
  - inversion_clear H as [|? ? Ha _]. code_cases Ha; reflexivity.
  - inversion_clear H as [|? ? Ha H']. inversion_clear H' as [|? ? Hb _].
    code_cases Ha; code_cases Hb; reflexivity.
  - inversion_clear H as [|? ? Ha H']. inversion_clear H' as [|? ? Hb H''].
    inversion_clear H'' as [|? ? Hc _].
    code_cases Ha; code_cases Hb; code_cases Hc; reflexivity.
  - inversion_clear H as [|? ? Ha H']. inversion_clear H' as [|? ? Hb H''].
    inversion_clear H'' as [|? ? Hc H']. inversion_clear H' as [|? ? Hd Hl].
    rewrite pack_cons4, !land3_code by assumption.
    change (length (a :: b :: c :: d :: l)) with (4 + length l)%nat.
    rewrite unpack_loop_cons4, IH by assumption.
    destruct (slot_byte4 a b c d Ha Hb Hc Hd) as (-> & -> & -> & ->).
    reflexivity.
Qed.

Lemma unpack_step_range (s : reader) :
  Forall is_code (decoded s) ->
  Forall is_code (decoded (unpack_step s)) /\
  length (decoded (unpack_step s)) = S (length (decoded s)).
Proof.
  intros H. unfold unpack_step.
  assert (decoded (if rbit_position s =? 0 then fread1 s else s) = decoded s)
    as Hd.
  { destruct (rbit_position s =? 0); [|reflexivity].
    unfold fread1. now destruct (unread s). }
  cbn [decoded]. rewrite Hd. split.
  - apply Forall_app. split; [exact H|].
    constructor; [|constructor].
    rewrite to_uint8_code by apply land3_is_code. apply land3_is_code.
  - rewrite length_app. cbn. lia.
Qed.

Lemma unpack_loop_range (n : nat) (s : reader) :
  Forall is_code (decoded s) ->
  Forall is_code (decoded (unpack_loop n s)) /\
  length (decoded (unpack_loop n s)) = (length (decoded s) + n)%nat.
Proof.
  revert s. induction n as [|n IH]; intros s H.
  - cbn. split; [exact H | lia].
  - cbn [unpack_loop]. destruct (unpack_step_range s H) as [H1 H2].
    destruct (IH _ H1) as [H3 H4]. split; [exact H3 | lia].
Qed.

(** ** The bit-pack claims *)

(** C1 (round trip). For every sequence of codes, each in [0,3], of any
    length, whether or not a multiple of 4, unpacking the packed bytes with
    the sequence's own length as the declared count gives the sequence
    back. *)
Theorem pack_unpack_roundtrip (seq : list Z) :
  Forall is_code seq -> unpack (pack seq) (length seq) = seq.
Proof.
  intros H. unfold unpack, reader_init. now apply unpack_pack_codes.
Qed.

Lemma pack_unpack_roundtrip_witness :
  Forall is_code [3; 2; 1; 0; 1] /\
  unpack (pack [3; 2; 1; 0; 1]) (length [3; 2; 1; 0; 1]) = [3; 2; 1; 0; 1].
Proof.
  assert (H : Forall is_code [3; 2; 1; 0; 1])
    by (repeat constructor; unfold is_code; lia).
  split; [exact H | exact (pack_unpack_roundtrip _ H)].
Defined.

(** The same through the file system: a file saved on a writable path and
    read back with the same count fills the caller's array with the codes
    that were saved. *)
Lemma save_then_read (w : world) (filename : string) (seq arr : list Z) :
  Forall is_code seq -> filename ∉ read_only w ->
  snd (read_large_array_from_file
         (save_large_array_to_file w filename seq) filename arr (length seq))
  = seq ++ drop (length seq) arr.
Proof.
  intros Hseq Hw. unfold save_large_array_to_file.
  destruct (decide (filename ∈ read_only w)) as [Hin | _]; [contradiction|].
  unfold read_large_array_from_file, store. cbn [disk].
  rewrite lookup_insert_eq. cbn [snd].
  unfold unpack, reader_init. now rewrite unpack_pack_codes.
Qed.

(** C3, as the specification states it, fails on its first example: the
    four codes 0,1,2,3 pack to 0x1B (binary 00 01 10 11), not to 0x17. *)
Lemma pack_0123_is_not_0x17 : pack [0; 1; 2; 3] <> [0x17].
Proof. discriminate. Qed.

(** C3 (byte layout, amended). On codes, the writer produces exactly the
    layout of the specification: one byte (c0<<6)|(c1<<4)|(c2<<2)|c3 per
    group of four codes in input order, and for a length that is not a
    multiple of 4 one last byte with the remaining one to three codes in
    the high bit pairs and zeros in the unused low bit pairs.  In
    particular pack [0,1,2,3] = [0x1B], pack [3] = [0xC0], pack [] = []. *)
Theorem pack_byte_layout (seq : list Z) :
  Forall is_code seq ->
  pack seq = pack_spec seq /\
  pack [0; 1; 2; 3] = [0x1B] /\ pack [3] = [0xC0] /\ pack [] = [].
Proof.
  intros H. split; [now apply pack_codes_spec | repeat split].
Qed.

Lemma pack_byte_layout_witness :
  Forall is_code [0; 1; 2; 3; 3; 1] /\
  pack [0; 1; 2; 3; 3; 1] = [0x1B; 0xD0].
Proof.
  assert (H : Forall is_code [0; 1; 2; 3; 3; 1])
    by (repeat constructor; unfold is_code; lia).
  split; [exact H|].
  exact (eq_trans (proj1 (pack_byte_layout _ H)) eq_refl).
Defined.

(** C4 (random access). When the byte stream holds at least ceil(n/4)
    bytes, the code the reader stores at index i < n is
    (bytes[i/4] >> (6 - 2*(i%4))) & 3: the first code of a byte sits in
    bits 7-6 and the fourth in bits 1-0. *)
Theorem unpack_random_access (bytes : list Z) (n i : nat) :
  ((n + 3) / 4 <= length bytes)%nat -> (i < n)%nat ->
  exists b, bytes !! (i / 4)%nat = Some b /\
            unpack bytes n !! i =
            Some (Z.land (Z.shiftr b (6 - 2 * Z.of_nat (i mod 4))) 3).
Proof.
  intros Hlen Hi.
  assert (i / 4 < length bytes)%nat as Hb.
  { eapply Nat.lt_le_trans; [|exact Hlen].
    apply Nat.lt_le_trans with (S (i / 4)); [lia|].
    rewrite <- div4_step. apply Nat.Div0.div_le_mono. lia. }
  destruct (lookup_lt_is_Some_2 bytes _ Hb) as [b Hlk].
  exists b. split; [exact Hlk|].
  unfold unpack, reader_init. rewrite unpack_loop_lookup by assumption.
  rewrite Hlk. reflexivity.
Qed.

Lemma unpack_random_access_witness :
  exists b, [0xE4; 0x40] !! (4 / 4)%nat = Some b /\
            unpack [0xE4; 0x40] 5 !! 4%nat =
            Some (Z.land (Z.shiftr b (6 - 2 * Z.of_nat (4 mod 4))) 3).
Proof.
  apply (unpack_random_access [0xE4; 0x40] 5 4); vm_compute; lia.
Defined.

(** C6 (density and flush). The packed output has exactly ceil(len/4)
    bytes.  When the loop ends with bit_position > 0, which is when the
    length is not a multiple of 4, the pending byte is written as one last
    byte whose unused low bits are zero; when it ends with
    bit_position = 0, as for the empty sequence, nothing more is
    written. *)
Theorem pack_density_and_flush (seq : list Z) :
  let s := pack_loop seq writer_init in
  length (pack seq) = ((length seq + 3) / 4)%nat /\
  bit_position s = 2 * Z.of_nat (length seq mod 4) /\
  length (written s) = (length seq / 4)%nat /\
  pack seq = written s ++ (if 0 <? bit_position s then [buffer s] else []) /\
  Z.land (buffer s) (Z.ones (8 - bit_position s)) = 0 /\
  pack [] = [].
Proof.
  cbn zeta. destruct (pack_loop_state seq) as (Hp & Hw & Hz).
  repeat split; try assumption.
  - apply pack_length.
  - unfold pack, pack_flush.
    destruct (0 <? bit_position (pack_loop seq writer_init));
      [reflexivity | now rewrite app_nil_r].
Qed.

(** C9 (the writer masks its input). For every sequence of integers, in
    [0,3] or not, the packed bytes are those of the sequence reduced
    modulo 4; an element contributes its low two bits only, so reading
    the file back gives every element modulo 4, its neighbours intact. *)
Theorem pack_masks_inputs (arr : list Z) :
  pack arr = pack (map (fun a => a mod 4) arr) /\
  unpack (pack arr) (length arr) = map (fun a => a mod 4) arr.
Proof.
  assert (map (fun a => a mod 4) arr = map (fun a => Z.land a 3) arr) as ->.
  { apply map_ext. intros a. now rewrite land3_mod. }
  split; [now rewrite pack_mask|].
  rewrite <- (pack_mask arr).
  rewrite <- (length_map (fun a => Z.land a 3) arr) at 1.
  unfold unpack, reader_init. apply unpack_pack_codes.
  apply Forall_forall. intros c Hc. apply list_elem_of_In, in_map_iff in Hc.
  destruct Hc as (a & <- & _). apply land3_is_code.
Qed.

(** C10 (range of the reader's output). Whatever the bytes of the file
    and whatever the count n, the reader stores exactly n values and each
    of them is in [0,3]; the file may even be too short. *)
Theorem unpack_codes_in_range (file : list Z) (n : nat) :
  length (unpack file n) = n /\
  Forall (fun c => 0 <= c <= 3) (unpack file n).
Proof.
  unfold unpack.
  destruct (unpack_loop_range n (reader_init file)) as [H1 H2];
    [constructor|].
  split; [exact H2 | exact H1].
Qed.

(** ** Running the code on small inputs *)

Example pack_five : pack [3; 2; 1; 0; 1] = [0xE4; 0x40].
Proof. reflexivity. Qed.

Example unpack_five : unpack [0xE4; 0x40] 5 = [3; 2; 1; 0; 1].
Proof. reflexivity. Qed.

(** A file shorter than the count: the stale byte is decoded again. *)
Example unpack_short_file : unpack [0xE4] 6 = [3; 2; 1; 0; 3; 2].
Proof. reflexivity. Qed.

Example pack_out_of_range : pack [7; 254; 4; 255] = pack [3; 2; 0; 3].
Proof. reflexivity. Qed.

(** * Properties of the FASTQ driver *)

Import Fastq.

(** ** [base_to_code] *)

Lemma base_to_code_eqb (c : ascii) :
  base_to_code c =
  if Ascii.eqb c "A" then 0
  else if Ascii.eqb c "C" then 1
  else if Ascii.eqb c "G" then 2
  else if Ascii.eqb c "T" then 3
  else 255.
Proof.
  destruct c as [[] [] [] [] [] [] [] []]; reflexivity.
Qed.

(** C5 (symbol codec). [base_to_code] maps exactly 'A' to 0, 'C' to 1,
    'G' to 2 and 'T' to 3, and every other character, lowercase letters,
    'N', '-' and the space among them, to the sentinel 255, which is not
    a code in [0,3]. *)
Theorem base_to_code_table (c : ascii) :
  (base_to_code c = 0 <-> c = "A"%char) /\
  (base_to_code c = 1 <-> c = "C"%char) /\
  (base_to_code c = 2 <-> c = "G"%char) /\
  (base_to_code c = 3 <-> c = "T"%char) /\
  (base_to_code c = 255 <->
     c <> "A"%char /\ c <> "C"%char /\ c <> "G"%char /\ c <> "T"%char) /\
  ~ is_code 255 /\
  map base_to_code ["N"; "a"; "c"; "g"; "t"; "-"; " "]%char
    = [255; 255; 255; 255; 255; 255; 255].
Proof.
  rewrite base_to_code_eqb.
  destruct (Ascii.eqb_spec c "A") as [->|HA];
    [|destruct (Ascii.eqb_spec c "C") as [->|HC];
      [|destruct (Ascii.eqb_spec c "G") as [->|HG];
        [|destruct (Ascii.eqb_spec c "T") as [->|HT]]]];
    unfold is_code; repeat split; intros; try tauto; try lia;
    try discriminate; try congruence.
  all: match goal with H : _ /\ _ |- _ => decompose [and] H; congruence end.
Qed.

(** ** Strings and [gzgets] *)

Lemma strchr_elem (s : list ascii) (c : ascii) :
  strchr s c = true <-> c ∈ s.
Proof.
  unfold strchr, ascii_in. rewrite existsb_exists, list_elem_of_In. split.
  - intros (x & Hin & Heq). apply Ascii.eqb_eq in Heq. now subst.
  - intros Hin. exists c. split; [exact Hin | apply Ascii.eqb_refl].
Qed.

Lemma gzgets_copy_length (room : nat) (stream line rest : list ascii) :
  gzgets_copy room stream = (line, rest) ->
  (length rest <= length stream)%nat /\
  (0 < room -> stream <> [] -> length rest < length stream)%nat.
Proof.
  revert stream line rest.
  induction room as [|room IH]; intros stream line rest H.
  - cbn in H. injection H as <- <-. split; lia.
  - destruct stream as [|c stream]; cbn [gzgets_copy] in H.
    + injection H as <- <-. split; [lia | congruence].
    + destruct (Ascii.eqb c LF).
      * injection H as <- <-. cbn [length]. split; lia.
      * destruct (gzgets_copy room stream) as [line' rest'] eqn:E.
        injection H as <- <-. destruct (IH _ _ _ E) as [Hle _].
        cbn [length]. split; lia.
Qed.

Lemma gzgets_consumes (len : nat) (stream line rest : list ascii) :
  (2 <= len)%nat ->
  gzgets len stream = Some (line, rest) ->
  (length rest < length stream)%nat.
Proof.
  intros Hlen. unfold gzgets. destruct stream as [|c stream]; [discriminate|].
  intros H. injection H as H.
  apply gzgets_copy_length in H. apply H; [lia | discriminate].
Qed.

Lemma gzgets_length (stream line rest : list ascii) :
  gzgets MAX_LINE_LENGTH stream = Some (line, rest) ->
  (length rest < length stream)%nat.
Proof.
  apply gzgets_consumes. unfold MAX_LINE_LENGTH. lia.
Qed.

Lemma gzgets_into_length (buf buf' : option (list ascii))
    (stream rest : list ascii) :
  gzgets_into buf stream = (buf', rest) ->
  (length rest <= length stream)%nat.
Proof.
  unfold gzgets_into.
  destruct (gzgets MAX_LINE_LENGTH stream) as [[chunk r]|] eqn:E; intros H;
    injection H as <- <-; [|lia].
  apply gzgets_length in E. lia.
Qed.

(** ** The loop terminates within its fuel *)

Lemma fastq_loop_fuel (fuel1 : nat) :
  forall (fuel2 K N : nat) (stream : list ascii) (seq : option (list ascii))
         (enc : list Z) (total : nat),
    (length stream < fuel1)%nat -> (length stream < fuel2)%nat ->
    fastq_loop fuel1 K N stream seq enc total =
    fastq_loop fuel2 K N stream seq enc total /\
    fastq_loop fuel1 K N stream seq enc total <> Out_of_fuel.
Proof.
  induction fuel1 as [|fuel1 IH]; intros fuel2 K N stream seq enc total H1 H2;
    [lia|].
  destruct fuel2 as [|fuel2]; [lia|]. cbn [fastq_loop].
  destruct (gzgets MAX_LINE_LENGTH stream) as [[id s1]|] eqn:E1;
    [|split; [reflexivity | discriminate]].
  destruct (gzgets_into seq s1) as [seq1 s2] eqn:E2.
  destruct (gzgets_into None s2) as [b3 s3] eqn:E3.
  destruct (gzgets_into None s3) as [b4 s4] eqn:E4.
  apply gzgets_length in E1. apply gzgets_into_length in E2, E3, E4.
  destruct seq1 as [seq_str|]; [|split; [reflexivity | discriminate]].
  destruct (handle_record K seq_str) as [| |codes].
  - apply IH; lia.
  - split; [reflexivity | discriminate].
  - destruct (S total =? N)%nat; [split; [reflexivity | discriminate]|].
    apply IH; lia.
Qed.

Lemma read_records_total (K N : nat) (text : list ascii) :
  read_records K N text <> Out_of_fuel.
Proof.
  unfold read_records.
  apply (fastq_loop_fuel (S (length text)) (S (length text))); lia.
Qed.

(** ** One record *)

Lemma handle_record_skipped (K : nat) (line : list ascii) :
  handle_record K line = Skipped <-> prefilter_skips (chomp line) = true.
Proof.
  unfold handle_record. destruct (prefilter_skips (chomp line)).
  - tauto.
  - destruct (encode_bases K 0 (chomp line) []); split; discriminate.
Qed.

Lemma encode_bases_invalid (todo : nat) :
  forall (start i : nat) (seq : list ascii) (codes : list Z),
    (start <= i < start + todo)%nat ->
    base_to_code (char_at seq i) = 255 ->
    encode_bases todo start seq codes = None.
Proof.
  induction todo as [|todo IH]; intros start i seq codes Hi H255; [lia|].
  cbn [encode_bases].
  destruct (base_to_code (char_at seq start) =? 255) eqn:E; [reflexivity|].
  apply (IH (S start) i); [|exact H255].
  destruct (Nat.eq_dec i start) as [->|Hne]; [|lia].
  rewrite H255 in E. discriminate.
Qed.

(** ** The driver's claims *)

(** C2, as the specification states it, fails in both directions: a
    32-character line with a lowercase letter is not skipped at K = 32 (it
    stops the process), and an 8-character line over the alphabet is
    skipped at K = 4. *)
Lemma prefilter_claim_fails :
  ~ (handle_record 32 lowercase_read = Skipped <->
     (length (chomp lowercase_read) < 32)%nat \/
     exists c, c ∈ chomp lowercase_read /\ c ∉ alphabet) /\
  ~ (handle_record 4 short_read = Skipped <->
     (length (chomp short_read) < 4)%nat \/
     exists c, c ∈ chomp short_read /\ c ∉ alphabet).
Proof.
  split.
  - intros [_ H].
    assert (handle_record 32 lowercase_read = Skipped) as E.
    { apply H. right. exists "a"%char. split.
      - apply list_elem_of_In. vm_compute. tauto.
      - intros Hin. apply list_elem_of_In in Hin. vm_compute in Hin.
        repeat destruct Hin as [Hin | Hin]; try discriminate; exact Hin. }
    vm_compute in E. discriminate.
  - intros [H _].
    destruct (H eq_refl) as [Hlt | (c & Hin & Hnot)].
    + vm_compute in Hlt. lia.
    + apply Hnot. apply list_elem_of_In in Hin. apply list_elem_of_In.
      vm_compute in Hin. vm_compute.
      repeat destruct Hin as [Hin | Hin]; tauto.
Qed.

(** C2 (pre-filter, amended). At the window length K = 32, a record is
    skipped exactly when its symbol line, stripped of its line ending, is
    shorter than K or contains the character 'N'. *)
Theorem prefilter_skips_short_or_N (K : nat) (line : list ascii) :
  K = 32%nat ->
  (handle_record K line = Skipped <->
   (length (chomp line) < K)%nat \/ "N"%char ∈ chomp line).
Proof.
  intros ->. rewrite handle_record_skipped. unfold prefilter_skips, strlen.
  rewrite orb_true_iff, Nat.ltb_lt, strchr_elem. reflexivity.
Qed.

Lemma prefilter_skips_short_or_N_witness :
  32%nat = 32%nat /\
  (handle_record 32 (line_of "ACGTN") = Skipped <->
   (length (chomp (line_of "ACGTN")) < 32)%nat \/
   "N"%char ∈ chomp (line_of "ACGTN")).
Proof.
  split; [reflexivity|].
  apply (prefilter_skips_short_or_N 32 (line_of "ACGTN")). reflexivity.
Defined.

(** C7 (existing output). When the output file already exists,
    [process_fastq] returns 0 at once: the disk is as it was, nothing is
    opened or written, and only a line is printed. *)
Theorem existing_output_short_circuit
    (gz_text : list Z -> list ascii) (w : world)
    (input_file output_file : string) (num_reads kmer_length : nat) :
  is_Some (disk w !! output_file) ->
  exists w',
    process_fastq gz_text w input_file output_file num_reads kmer_length
      = Returned w' 0 /\
    disk w' = disk w /\ read_only w' = read_only w /\
    console w' =
      console w ++ [Stdout ("Output file `" +:+ output_file +:+
                            "` exists, skip it." +:+ newline)].
Proof.
  intros Hex. unfold process_fastq.
  destruct (decide (is_Some (disk w !! output_file))) as [_ | Hn];
    [|contradiction].
  eexists. split; [reflexivity|]. repeat split.
Qed.

Lemma existing_output_short_circuit_witness :
  exists w',
    process_fastq plain_text
      (store "out.bin" [0x1B] (sample_world (fastq_record read_id good_read)))
      "reads.fq" "out.bin" 1 32 = Returned w' 0 /\
    disk w' =
      disk (store "out.bin" [0x1B]
              (sample_world (fastq_record read_id good_read))) /\
    read_only w' =
      read_only (store "out.bin" [0x1B]
                   (sample_world (fastq_record read_id good_read))) /\
    console w' =
      console (store "out.bin" [0x1B]
                 (sample_world (fastq_record read_id good_read))) ++
      [Stdout ("Output file `" +:+ "out.bin" +:+
               "` exists, skip it." +:+ newline)].
Proof.
  apply existing_output_short_circuit.
  unfold store. cbn [disk]. rewrite lookup_insert_eq. eexists. reflexivity.
Defined.

(** C8 (invalid symbol at the encode stage). Whenever the loop reads a
    record whose symbol line passes the pre-filter and has, among its
    first K characters, one that [base_to_code] maps to 255, the record is
    neither skipped nor encoded: the loop stops there and the process
    exits with EXIT_FAILURE after a message on stderr, whatever was read
    before, and no output file is written. *)
Theorem invalid_base_is_fatal
    (K N fuel : nat) (stream id s1 s2 line : list ascii)
    (seq0 : option (list ascii)) (enc : list Z) (total i : nat) (c : ascii) :
  gzgets MAX_LINE_LENGTH stream = Some (id, s1) ->
  gzgets_into seq0 s1 = (Some line, s2) ->
  prefilter_skips (chomp line) = false ->
  (i < K)%nat -> chomp line !! i = Some c -> base_to_code c = 255 ->
  handle_record K line = Invalid_base /\
  fastq_loop (S fuel) K N stream seq0 enc total = Aborted (chomp line) /\
  forall (w : world) (output_file : string),
    after_loop w output_file (fastq_loop (S fuel) K N stream seq0 enc total)
    = Exited (emit (Stderr ("Invalid base in sequence: " +:+
                            string_of_list_ascii (chomp line) +:+ newline)) w)
             EXIT_FAILURE.
Proof.
  intros Hid Hseq Hpass Hi Hc H255.
  assert (handle_record K line = Invalid_base) as Hrec.
  { unfold handle_record. rewrite Hpass.
    rewrite (encode_bases_invalid K 0 i); [reflexivity | lia |].
    unfold char_at. now rewrite (nth_lookup_Some _ _ NUL _ Hc). }
  assert (fastq_loop (S fuel) K N stream seq0 enc total
          = Aborted (chomp line)) as Hloop.
  { cbn [fastq_loop]. rewrite Hid, Hseq.
    destruct (gzgets_into None s2) as [b3 s3].
    destruct (gzgets_into None s3) as [b4 s4].
    now rewrite Hrec. }
  split; [exact Hrec|]. split; [exact Hloop|].
  intros w output_file. now rewrite Hloop.
Qed.

Lemma invalid_base_is_fatal_witness :
  handle_record 32 (lowercase_read ++ [LF]) = Invalid_base /\
  fastq_loop 1 32 1 (fastq_record read_id lowercase_read) None [] 0
    = Aborted (chomp (lowercase_read ++ [LF])) /\
  forall (w : world) (output_file : string),
    after_loop w output_file
      (fastq_loop 1 32 1 (fastq_record read_id lowercase_read) None [] 0)
    = Exited (emit (Stderr ("Invalid base in sequence: " +:+
                            string_of_list_ascii
                              (chomp (lowercase_read ++ [LF])) +:+ newline)) w)
             EXIT_FAILURE.
Proof.
  apply (invalid_base_is_fatal 32 1 0
           (fastq_record read_id lowercase_read) (read_id ++ [LF])
           (lowercase_read ++ [LF] ++ line_of "+" ++ line_of "IIII")
           (line_of "+" ++ line_of "IIII")
           (lowercase_read ++ [LF]) None [] 0 0 "a"%char);
    [reflexivity | reflexivity | reflexivity | lia | reflexivity
    | reflexivity].
Defined.

(** ** Running the driver on small inputs *)

(** One good record at K = 32: 32 codes, eight bytes 0x1B. *)
Example process_good_read :
  process_fastq plain_text (sample_world (fastq_record read_id good_read))
    "reads.fq" "out.bin" 1 32
  = Returned
      (store "out.bin" [0x1B; 0x1B; 0x1B; 0x1B; 0x1B; 0x1B; 0x1B; 0x1B]
         (sample_world (fastq_record read_id good_read)))
      32.
Proof. reflexivity. Qed.

(** A lowercase base stops the process; no output file appears. *)
Example process_lowercase_read :
  process_fastq plain_text (sample_world (fastq_record read_id lowercase_read))
    "reads.fq" "out.bin" 1 32
  = Exited
      (emit (Stderr ("Invalid base in sequence: " +:+
                     "aCGTACGTACGTACGTACGTACGTACGTACGT" +:+ newline))
         (sample_world (fastq_record read_id lowercase_read)))
      EXIT_FAILURE.
Proof. reflexivity. Qed.

(** A short record is skipped, also when K is below its length. *)
Example read_short_record :
  read_records 4 5 (fastq_record read_id short_read) = Finished [].
Proof. reflexivity. Qed.

(** A window longer than the line reaches the terminating NUL. *)
Example read_window_past_line :
  read_records 40 5 (fastq_record read_id good_read) = Aborted good_read.
Proof. reflexivity. Qed.

(** A trailing identifier line without a symbol line: the buffer still
    holds the previous record's symbols, which are encoded once more. *)
Example read_trailing_identifier :
  read_records 32 5 (fastq_record read_id good_read ++ line_of "@r2")
  = read_records 32 5
      (fastq_record read_id good_read ++ fastq_record read_id good_read).
Proof. reflexivity. Qed.

(** A file of one line: the symbol buffer is read before any store. *)
Example read_single_line :
  read_records 32 5 (line_of "@r1") = Uninitialised.
Proof. reflexivity. Qed.

(** * Further properties of the bit-pack writer and reader *)

(** Facts on [n / 4] and [n mod 4] for linear arithmetic. *)
Ltac div4 n :=
  pose proof (Nat.div_mod_eq n 4);
  pose proof (Nat.mod_upper_bound n 4 ltac:(lia)).

(** ** Writing in pieces *)

(** X1. A sequence written in two pieces, the first of a length that is a
    multiple of 4, gives the bytes of the first piece followed by the
    bytes of the second: the writer is back in its initial state after
    every fourth element. *)
Theorem pack_app_aligned (pre post : list Z) :
  (length pre mod 4 = 0)%nat -> pack (pre ++ post) = pack pre ++ pack post.
Proof.
  induction pre as [|a|a b|a b c|a b c d l IH] using list_ind4; intros H;
    try discriminate.
  - reflexivity.
  - change (length (a :: b :: c :: d :: l)) with (4 + length l)%nat in H.
    rewrite mod4_step in H. cbn [app]. rewrite !pack_cons4, IH by exact H.
    reflexivity.
Qed.

Lemma pack_app_aligned_witness :
  (length [3; 2; 1; 0]%Z mod 4 = 0)%nat /\
  pack ([3; 2; 1; 0] ++ [1; 1]) = pack [3; 2; 1; 0] ++ pack [1; 1].
Proof.
  split; [reflexivity|]. apply (pack_app_aligned [3; 2; 1; 0] [1; 1]).
  reflexivity.
Defined.

(** ** Every byte written is a byte *)

Lemma to_uint8_range (z : Z) : 0 <= to_uint8 z <= 255.
Proof. unfold to_uint8. pose proof (Z.mod_pos_bound z 256). lia. Qed.

Lemma pack_step_bytes (s : writer) (a : Z) :
  is_byte_inv s -> is_byte_inv (pack_step s a).
Proof.
  intros [Hw Hb]. unfold pack_step, is_byte_inv.
  destruct (bit_position s + 2 =? 8); cbn [written buffer].
  - split; [|lia]. apply Forall_app. split; [exact Hw|].
    constructor; [apply to_uint8_range | constructor].
  - split; [exact Hw | apply to_uint8_range].
Qed.

Lemma pack_loop_bytes (arr : list Z) (s : writer) :
  is_byte_inv s -> is_byte_inv (pack_loop arr s).
Proof.
  revert s. induction arr as [|a arr IH]; intros s H; [exact H|].
  apply IH, pack_step_bytes, H.
Qed.

(** Whatever integers the array holds, every byte the writer puts in the
    file is in [0,255]. *)
Lemma pack_bytes_in_range (arr : list Z) :
  Forall (fun b => 0 <= b <= 255) (pack arr).
Proof.
  unfold pack, pack_flush.
  destruct (pack_loop_bytes arr writer_init) as [Hw Hb].
  { split; [constructor | cbn; lia]. }
  destruct (0 <? bit_position (pack_loop arr writer_init)); [|exact Hw].
  apply Forall_app. split; [exact Hw | constructor; [exact Hb | constructor]].
Qed.

(** ** Reading fewer or more codes than were written *)

Lemma unpack_loop_add (n k : nat) (s : reader) :
  unpack_loop (n + k) s = unpack_loop k (unpack_loop n s).
Proof.
  revert s. induction n as [|n IH]; intros s; [reflexivity|].
  cbn [Nat.add unpack_loop]. apply IH.
Qed.

Lemma unpack_length (file : list Z) (n : nat) : length (unpack file n) = n.
Proof.
  unfold unpack.
  destruct (unpack_loop_range n (reader_init file)) as [_ H]; [constructor|].
  exact H.
Qed.

Lemma unpack_add (file : list Z) (n k : nat) :
  exists more, unpack file (n + k) = unpack file n ++ more.
Proof.
  unfold unpack. rewrite unpack_loop_add.
  destruct (unpack_loop n (reader_init file)) as [b p u d].
  rewrite unpack_loop_decoded. cbn [decoded]. eauto.
Qed.

(** X3. A reader given a smaller count gets a prefix of what a reader
    given a larger count gets: the codes stored do not depend on how many
    more are asked for. *)
Theorem unpack_prefix (file : list Z) (n m : nat) :
  (n <= m)%nat -> unpack file n = take n (unpack file m).
Proof.
  intros Hnm. replace m with (n + (m - n))%nat by lia.
  destruct (unpack_add file n (m - n)) as [more ->].
  symmetry. apply take_app_length'. now rewrite unpack_length.
Qed.

Lemma unpack_prefix_witness :
  (3 <= 5)%nat /\ unpack [0xE4; 0x40] 3 = take 3 (unpack [0xE4; 0x40] 5).
Proof.
  split; [lia|]. apply (unpack_prefix [0xE4; 0x40] 3 5). lia.
Defined.

(** X4. Reading back only the first n codes of a saved sequence gives the
    first n codes. *)
Theorem unpack_pack_partial (seq : list Z) (n : nat) :
  Forall is_code seq -> (n <= length seq)%nat ->
  unpack (pack seq) n = take n seq.
Proof.
  intros Hseq Hn.
  assert (unpack (pack seq) (length seq) = seq) as Hall
    by (unfold unpack, reader_init; now apply unpack_pack_codes).
  replace (length seq) with (n + (length seq - n))%nat in Hall by lia.
  destruct (unpack_add (pack seq) n (length seq - n)) as [more Hmore].
  rewrite Hmore in Hall.
  replace (take n seq) with (take n (unpack (pack seq) n ++ more))
    by (now rewrite Hall).
  symmetry. apply take_app_length'. now rewrite unpack_length.
Qed.

Lemma unpack_pack_partial_witness :
  Forall is_code [3; 2; 1; 0; 1] /\ (2 <= length [3; 2; 1; 0; 1]%Z)%nat /\
  unpack (pack [3; 2; 1; 0; 1]) 2 = take 2 [3; 2; 1; 0; 1].
Proof.
  assert (H : Forall is_code [3; 2; 1; 0; 1])
    by (repeat constructor; unfold is_code; lia).
  split; [exact H|]. split; [cbn; lia|].
  apply (unpack_pack_partial [3; 2; 1; 0; 1] 2 H). cbn. lia.
Defined.

(** X5. Two code sequences of the same length that pack to the same bytes
    are equal. *)
Theorem pack_injective (seq1 seq2 : list Z) :
  Forall is_code seq1 -> Forall is_code seq2 ->
  length seq1 = length seq2 -> pack seq1 = pack seq2 -> seq1 = seq2.
Proof.
  intros H1 H2 Hlen Hpack.
  rewrite <- (unpack_pack_codes seq1 H1 0), <- (unpack_pack_codes seq2 H2 0).
  now rewrite Hpack, Hlen.
Qed.

Lemma pack_injective_witness :
  Forall is_code [1; 2] /\ Forall is_code [1; 2] /\
  length [1; 2] = length [1; 2] /\ pack [1; 2] = pack [1; 2] /\
  [1; 2] = [1; 2].
Proof.
  assert (H : Forall is_code [1; 2])
    by (repeat constructor; unfold is_code; lia).
  split; [exact H|]. split; [exact H|]. split; [reflexivity|].
  split; [reflexivity|].
  exact (pack_injective [1; 2] [1; 2] H H eq_refl eq_refl).
Defined.

(** ** The length is not in the file *)

Lemma pack_snoc_zero (arr : list Z) :
  (length arr mod 4 <> 0)%nat -> pack (arr ++ [0]) = pack arr.
Proof.
  induction arr as [|a|a b|a b c|a b c d l IH] using list_ind4; intros H.
  - now contradiction H.
  - rewrite <- (pack_mask ([a] ++ [0])), <- (pack_mask [a]). cbn [map app].
    mask_cases a; reflexivity.
  - rewrite <- (pack_mask ([a; b] ++ [0])), <- (pack_mask [a; b]).
    cbn [map app]. mask_cases a; mask_cases b; reflexivity.
  - rewrite <- (pack_mask ([a; b; c] ++ [0])), <- (pack_mask [a; b; c]).
    cbn [map app]. mask_cases a; mask_cases b; mask_cases c; reflexivity.
  - change (length (a :: b :: c :: d :: l)) with (4 + length l)%nat in H.
    rewrite mod4_step in H. cbn [app]. rewrite !pack_cons4, IH by exact H.
    reflexivity.
Qed.

(** X6. When the length is not a multiple of 4, appending an element
    whose low two bits are zero does not change the file: the bytes alone
    do not tell how many codes were written. *)
Theorem pack_trailing_zero_invisible (arr : list Z) (z : Z) :
  (length arr mod 4 <> 0)%nat -> z mod 4 = 0 -> pack (arr ++ [z]) = pack arr.
Proof.
  intros Hlen Hz. rewrite <- (pack_mask (arr ++ [z])), map_app. cbn [map].
  rewrite land3_mod, Hz, <- (pack_snoc_zero arr Hlen).
  rewrite <- (pack_mask (arr ++ [0])), map_app. reflexivity.
Qed.

Lemma pack_trailing_zero_invisible_witness :
  (length [3; 1]%Z mod 4 <> 0)%nat /\ 4 mod 4 = 0 /\
  pack ([3; 1] ++ [4]) = pack [3; 1].
Proof.
  assert (H : (length [3; 1]%Z mod 4 <> 0)%nat) by (cbn; lia).
  split; [exact H|]. split; [reflexivity|].
  exact (pack_trailing_zero_invisible [3; 1] 4 H eq_refl).
Defined.

Lemma pack_pad (k : nat) :
  forall arr : list Z,
    (length arr + k <= 4 * ((length arr + 3) / 4))%nat ->
    pack (arr ++ replicate k 0) = pack arr.
Proof.
  induction k as [|k IH]; intros arr H.
  - cbn [replicate]. now rewrite app_nil_r.
  - rewrite replicate_S, (cons_middle 0 arr), app_assoc.
    div4 (length arr). div4 (length arr + 3)%nat. div4 (length arr + 1 + 3)%nat.
    rewrite IH.
    + apply pack_snoc_zero. lia.
    + rewrite length_app. cbn [length]. lia.
Qed.

(** X7. Asking for more codes than were written, up to the end of the
    last byte, gives the codes written followed by zeros: the padding of
    the last byte reads back as code 0. *)
Theorem unpack_pack_padding (seq : list Z) (n : nat) :
  Forall is_code seq ->
  (length seq <= n <= 4 * length (pack seq))%nat ->
  unpack (pack seq) n = seq ++ replicate (n - length seq) 0.
Proof.
  intros Hseq [Hlo Hhi]. rewrite pack_length in Hhi.
  rewrite <- (pack_pad (n - length seq) seq) by lia.
  assert (length (seq ++ replicate (n - length seq) 0) = n) as Hlen
    by (rewrite length_app, length_replicate; lia).
  remember (seq ++ replicate (n - length seq) 0) as padded eqn:Hpad.
  rewrite <- Hlen. unfold unpack, reader_init. apply unpack_pack_codes.
  subst padded. apply Forall_app. split; [exact Hseq|].
  apply Forall_replicate. unfold is_code. lia.
Qed.

Lemma unpack_pack_padding_witness :
  Forall is_code [3; 2; 1; 0; 1] /\
  (length [3; 2; 1; 0; 1]%Z <= 8 <= 4 * length (pack [3; 2; 1; 0; 1]%Z))%nat /\
  unpack (pack [3; 2; 1; 0; 1]) 8 =
  [3; 2; 1; 0; 1] ++ replicate (8 - length [3; 2; 1; 0; 1]) 0.
Proof.
  assert (H : Forall is_code [3; 2; 1; 0; 1])
    by (repeat constructor; unfold is_code; lia).
  split; [exact H|]. split; [vm_compute; lia|].
  apply (unpack_pack_padding [3; 2; 1; 0; 1] 8 H). vm_compute. lia.
Defined.

(** ** Reading past the end of the file *)

Lemma unpack_loop_eof_first (n : nat) (b : Z) :
  (n <= 4)%nat ->
  decoded (unpack_loop n (Reader b 0 [] [])) =
  take n [slot b 0; slot b 1; slot b 2; slot b 3].
Proof.
  intros Hn.
  destruct n as [|[|[|[|[|n]]]]]; [reflexivity | .. | lia];
    cbn [unpack_loop];
    rewrite unpack_step_eof, ?unpack_step_2, ?unpack_step_4, ?unpack_step_6;
    reflexivity.
Qed.

Lemma unpack_loop_eof4 (n : nat) (b : Z) :
  decoded (unpack_loop (4 + n) (Reader b 0 [] [])) =
  slot b 0 :: slot b 1 :: slot b 2 :: slot b 3
    :: decoded (unpack_loop n (Reader b 0 [] [])).
Proof.
  cbn [Nat.add unpack_loop].
  rewrite unpack_step_eof, unpack_step_2, unpack_step_4, unpack_step_6.
  cbn [app]. now rewrite unpack_loop_decoded.
Qed.

Lemma unpack_loop_lookup_nil (n : nat) :
  forall (i : nat) (b : Z),
    (i < n)%nat ->
    decoded (unpack_loop n (Reader b 0 [] [])) !! i =
    Some (slot b (Z.of_nat (i mod 4))).
Proof.
  induction n as [n IH] using lt_wf_ind. intros i b Hi.
  destruct (le_lt_dec n 4) as [Hn | Hn].
  - rewrite unpack_loop_eof_first by exact Hn.
    destruct n as [|[|[|[|[|n]]]]]; try lia;
      destruct i as [|[|[|[|i]]]]; try lia; reflexivity.
  - replace n with (4 + (n - 4))%nat by lia. rewrite unpack_loop_eof4.
    destruct i as [|[|[|[|i]]]]; try reflexivity.
    change (S (S (S (S i)))) with (4 + i)%nat. rewrite mod4_step.
    cbn [lookup list_lookup Nat.add]. apply IH; lia.
Qed.

Lemma unpack_loop_lookup_past (u : list Z) :
  forall (n i : nat) (b : Z),
    (i < n)%nat -> (length u <= i / 4)%nat ->
    decoded (unpack_loop n (Reader b 0 u [])) !! i =
    Some (slot (default b (last u)) (Z.of_nat (i mod 4))).
Proof.
  induction u as [|x u IH]; intros n i b Hi Hlen.
  - now apply unpack_loop_lookup_nil.
  - cbn [length] in Hlen.
    destruct (le_lt_dec n 4) as [Hn | Hn].
    { rewrite Nat.div_small in Hlen by lia. lia. }
    destruct (le_lt_dec 4 i) as [H4 | H4];
      [|rewrite Nat.div_small in Hlen by lia; lia].
    replace n with (4 + (n - 4))%nat by lia. rewrite unpack_loop_cons4.
    replace i with (4 + (i - 4))%nat in Hlen |- * by lia.
    rewrite div4_step in Hlen. rewrite mod4_step.
    cbn [lookup list_lookup Nat.add].
    rewrite IH by lia. f_equal.
    destruct u as [|y u].
    + cbn [last default]. apply slot_to_uint8.
      pose proof (Nat.mod_upper_bound (i - 4) 4). lia.
    + rewrite last_cons_cons.
      destruct (last (y :: u)) eqn:E; [reflexivity|].
      apply last_None in E. discriminate.
Qed.

(** X8. Past the end of the file the reader does not fail: [fread] stores
    nothing, and every further code is decoded from the last byte that
    was read (from the initial 0 when the file is empty). *)
Theorem unpack_past_end_of_file (file : list Z) (n i : nat) :
  (4 * length file <= i)%nat -> (i < n)%nat ->
  unpack file n !! i =
  Some (Z.land (Z.shiftr (default 0 (last file))
                         (6 - 2 * Z.of_nat (i mod 4))) 3).
Proof.
  intros Hlo Hhi. unfold unpack, reader_init.
  apply unpack_loop_lookup_past; [exact Hhi|].
  div4 i. lia.
Qed.

Lemma unpack_past_end_of_file_witness :
  (4 * length [0xE4]%Z <= 5)%nat /\ (5 < 6)%nat /\
  unpack [0xE4] 6 !! 5%nat =
  Some (Z.land (Z.shiftr (default 0 (last [0xE4]))
                         (6 - 2 * Z.of_nat (5 mod 4))) 3).
Proof.
  split; [cbn; lia|]. split; [lia|].
  apply (unpack_past_end_of_file [0xE4] 6 5); cbn; lia.
Defined.

(** ** Bytes to codes and back *)

Lemma byte4_slots_check :
  forallb (fun m => byte4 (slot (Z.of_nat m) 0) (slot (Z.of_nat m) 1)
                      (slot (Z.of_nat m) 2) (slot (Z.of_nat m) 3)
                    =? Z.of_nat m)
          (seq 0 256) = true.
Proof. vm_compute. reflexivity. Qed.

Lemma byte4_slots (x : Z) :
  byte4 (slot x 0) (slot x 1) (slot x 2) (slot x 3) = to_uint8 x.
Proof.
  rewrite <- (slot_to_uint8 x 0), <- (slot_to_uint8 x 1),
    <- (slot_to_uint8 x 2), <- (slot_to_uint8 x 3) by lia.
  pose proof (to_uint8_range x) as Hr.
  generalize dependent (to_uint8 x). intros y Hy.
  pose proof byte4_slots_check as H.
  rewrite forallb_forall in H.
  specialize (H (Z.to_nat y)). rewrite Z2Nat.id in H by lia.
  apply Z.eqb_eq, H, in_seq. lia.
Qed.

Lemma pack_unpack_loop (u : list Z) :
  forall b,
    pack (decoded (unpack_loop (4 * length u) (Reader b 0 u [])))
    = map to_uint8 u.
Proof.
  induction u as [|x u IH]; intros b; [reflexivity|].
  replace (4 * length (x :: u))%nat with (4 + 4 * length u)%nat
    by (cbn [length]; lia).
  rewrite unpack_loop_cons4, pack_cons4, IH.
  rewrite !land3_code by apply slot_is_code.
  now rewrite byte4_slots.
Qed.

(** X9. Decoding a whole file, four codes per byte, and packing the codes
    again gives the file back. *)
Theorem pack_unpack_whole_file (file : list Z) :
  Forall (fun b => 0 <= b <= 255) file ->
  pack (unpack file (4 * length file)) = file.
Proof.
  intros Hfile. unfold unpack, reader_init. rewrite pack_unpack_loop.
  induction Hfile as [|b file Hb _ IH]; [reflexivity|].
  cbn [map]. rewrite IH. f_equal. unfold to_uint8. apply Z.mod_small. lia.
Qed.

Lemma pack_unpack_whole_file_witness :
  Forall (fun b => 0 <= b <= 255) [0xE4; 0x40] /\
  pack (unpack [0xE4; 0x40] (4 * length [0xE4; 0x40]%Z)) = [0xE4; 0x40].
Proof.
  assert (H : Forall (fun b => 0 <= b <= 255) [0xE4; 0x40])
    by (repeat constructor; lia).
  split; [exact H | exact (pack_unpack_whole_file _ H)].
Defined.

(** ** The two entry points and the file system *)

(** X10. A file saved on a writable path and read back with the same
    count fills the first cells of the caller's array with the codes that
    were saved and leaves the cells after them as they were. *)
Theorem save_read_roundtrip
    (w : world) (filename : string) (seq arr : list Z) :
  Forall is_code seq -> filename ∉ read_only w ->
  snd (read_large_array_from_file
         (save_large_array_to_file w filename seq) filename arr (length seq))
  = seq ++ drop (length seq) arr.
Proof.
  intros Hseq Hw. unfold save_large_array_to_file.
  destruct (decide (filename ∈ read_only w)) as [Hin | _]; [contradiction|].
  unfold read_large_array_from_file, store. cbn [disk snd].
  rewrite lookup_insert_eq. cbn [snd]. f_equal.
  unfold unpack, reader_init. now apply unpack_pack_codes.
Qed.

Lemma save_read_roundtrip_witness :
  Forall is_code [3; 2; 1; 0; 1] /\
  ("a.bin" ∉ read_only (World ∅ ∅ [])) /\
  snd (read_large_array_from_file
         (save_large_array_to_file (World ∅ ∅ []) "a.bin" [3; 2; 1; 0; 1])
         "a.bin" [9; 9; 9; 9; 9; 9; 9] (length [3; 2; 1; 0; 1]))
  = [3; 2; 1; 0; 1] ++ drop (length [3; 2; 1; 0; 1]) [9; 9; 9; 9; 9; 9; 9].
Proof.
  assert (H : Forall is_code [3; 2; 1; 0; 1])
    by (repeat constructor; unfold is_code; lia).
  assert (Hw : "a.bin" ∉ read_only (World ∅ ∅ []))
    by (cbn [read_only]; apply not_elem_of_empty).
  split; [exact H|]. split; [exact Hw|].
  exact (save_read_roundtrip (World ∅ ∅ []) "a.bin" _ _ H Hw).
Defined.

(** X11. [read_large_array_from_file] writes no file and keeps the
    caller's array at its length; the cells from index [size] on are
    untouched, whether the file could be opened or not, and the cells
    below are codes in [0,3] when it could. *)
Theorem read_array_frame
    (w : world) (filename : string) (arr : list Z) (size : nat) :
  (size <= length arr)%nat ->
  let r := read_large_array_from_file w filename arr size in
  disk (fst r) = disk w /\
  length (snd r) = length arr /\
  drop size (snd r) = drop size arr /\
  (is_Some (disk w !! filename) ->
   Forall (fun c => 0 <= c <= 3) (take size (snd r))).
Proof.
  intros Hsize. cbn zeta. unfold read_large_array_from_file.
  destruct (disk w !! filename) as [file|] eqn:E; cbn [fst snd].
  - pose proof (unpack_length file size) as Hlen.
    repeat split.
    + rewrite length_app, length_drop, Hlen. lia.
    + rewrite drop_app_length'; [reflexivity | now symmetry].
    + intros _. rewrite take_app_length' by (now symmetry).
      unfold unpack.
      destruct (unpack_loop_range size (reader_init file)) as [H _];
        [constructor | exact H].
  - repeat split. intros [x Hx]. discriminate.
Qed.

Lemma read_array_frame_witness :
  let r := read_large_array_from_file
             (World {[ "a.bin" := [0xE4] ]} ∅ []) "a.bin" [9; 9; 9] 2 in
  disk (fst r) = disk (World {[ "a.bin" := [0xE4] ]} ∅ []) /\
  length (snd r) = length [9; 9; 9] /\
  drop 2 (snd r) = drop 2 [9; 9; 9] /\
  (is_Some (disk (World {[ "a.bin" := [0xE4] ]} ∅ []) !! "a.bin") ->
   Forall (fun c => 0 <= c <= 3) (take 2 (snd r))).
Proof.
  apply (read_array_frame (World {[ "a.bin" := [0xE4] ]} ∅ []) "a.bin"
           [9; 9; 9] 2).
  cbn. lia.
Defined.

(** X12. [save_large_array_to_file] touches no file but the one it is
    given: every other path keeps its contents, and on a path it cannot
    open the whole disk is as before. *)
Theorem save_frame
    (w : world) (filename other : string) (arr : list Z) :
  other <> filename ->
  disk (save_large_array_to_file w filename arr) !! other = disk w !! other /\
  (filename ∈ read_only w ->
   disk (save_large_array_to_file w filename arr) = disk w).
Proof.
  intros Hne. unfold save_large_array_to_file.
  destruct (decide (filename ∈ read_only w)) as [Hin | Hnin].
  - split; reflexivity.
  - split; [|contradiction]. unfold store. cbn [disk].
    now rewrite lookup_insert_ne.
Qed.

Lemma save_frame_witness :
  "b.bin" <> "a.bin" /\
  disk (save_large_array_to_file (World {[ "b.bin" := [0xE4] ]} ∅ [])
          "a.bin" [1; 2]) !! "b.bin"
  = disk (World {[ "b.bin" := [0xE4] ]} ∅ []) !! "b.bin".
Proof.
  assert (H : "b.bin" <> "a.bin") by discriminate.
  split; [exact H|].
  exact (proj1 (save_frame (World {[ "b.bin" := [0xE4] ]} ∅ [])
                  "a.bin" "b.bin" [1; 2] H)).
Defined.

(** * Further properties of the FASTQ driver *)

(** ** Line endings *)

Lemma strcspn_app_hit (s t reject : list ascii) (c : ascii) :
  Forall (fun x => ascii_in x reject = false) s ->
  ascii_in c reject = true ->
  strcspn (s ++ c :: t) reject = length s.
Proof.
  intros Hs Hc. induction Hs as [|x s Hx _ IH]; cbn [app strcspn length].
  - now rewrite Hc.
  - now rewrite Hx, IH.
Qed.

Lemma strcspn_all (s reject : list ascii) :
  Forall (fun x => ascii_in x reject = false) s ->
  strcspn s reject = length s.
Proof.
  intros Hs. induction Hs as [|x s Hx _ IH]; cbn [strcspn length];
    [reflexivity|].
  now rewrite Hx, IH.
Qed.

Lemma not_line_end (s : list ascii) :
  CR ∉ s -> LF ∉ s -> Forall (fun x => ascii_in x [CR; LF] = false) s.
Proof.
  intros HCR HLF. apply Forall_forall. intros x Hx.
  unfold ascii_in. cbn [existsb].
  destruct (Ascii.eqb_spec x CR) as [->|_]; [contradiction|].
  destruct (Ascii.eqb_spec x LF) as [->|_]; [contradiction|].
  reflexivity.
Qed.

(** X13. The line ending is cut off whether it is LF or CR LF: the
    string is truncated at its first CR or LF, and a line without either
    is kept whole. *)
Theorem chomp_line_endings (s t : list ascii) :
  CR ∉ s -> LF ∉ s ->
  chomp (s ++ LF :: t) = s /\ chomp (s ++ CR :: t) = s /\ chomp s = s.
Proof.
  intros HCR HLF. pose proof (not_line_end s HCR HLF) as Hs.
  unfold chomp. repeat split.
  - rewrite strcspn_app_hit by (exact Hs || reflexivity).
    apply take_app_length.
  - rewrite strcspn_app_hit by (exact Hs || reflexivity).
    apply take_app_length.
  - rewrite strcspn_all by exact Hs. apply firstn_all.
Qed.

(** Decides a closed membership side condition by evaluation. *)
Ltac by_decide := apply (bool_decide_unpack _); vm_compute; exact I.

Lemma chomp_line_endings_witness :
  (CR ∉ short_read) /\ (LF ∉ short_read) /\
  chomp (short_read ++ LF :: good_read) = short_read /\
  chomp (short_read ++ CR :: good_read) = short_read /\
  chomp short_read = short_read.
Proof.
  assert (H1 : CR ∉ short_read) by by_decide.
  assert (H2 : LF ∉ short_read) by by_decide.
  split; [exact H1|]. split; [exact H2|].
  exact (chomp_line_endings short_read good_read H1 H2).
Defined.

(** ** What an accepted record contributes *)

Lemma base_to_code_valid (c : ascii) :
  c ∈ alphabet -> is_code (base_to_code c) /\ base_to_code c <> 255.
Proof.
  unfold alphabet. rewrite !elem_of_cons, elem_of_nil.
  intros [->|[->|[->|[->|[]]]]]; unfold is_code; cbn; lia.
Qed.

Lemma base_to_code_invalid (c : ascii) :
  c ∉ alphabet -> base_to_code c = 255.
Proof.
  unfold alphabet. rewrite !not_elem_of_cons. intros (HA & HC & HG & HT & _).
  rewrite base_to_code_eqb.
  destruct (Ascii.eqb_spec c "A"); [contradiction|].
  destruct (Ascii.eqb_spec c "C"); [contradiction|].
  destruct (Ascii.eqb_spec c "G"); [contradiction|].
  destruct (Ascii.eqb_spec c "T"); [contradiction|].
  reflexivity.
Qed.

Lemma NUL_invalid : NUL ∉ alphabet.
Proof. by_decide. Qed.

(** The inner [for] loop, as a function of the symbols it reads. *)
Lemma encode_bases_spec (todo : nat) :
  forall (i : nat) (seq : list ascii) (acc codes : list Z),
    encode_bases todo i seq acc = Some codes <->
    length (take todo (drop i seq)) = todo /\
    Forall (fun c => c ∈ alphabet) (take todo (drop i seq)) /\
    codes = acc ++ map base_to_code (take todo (drop i seq)).
Proof.
  induction todo as [|todo IH]; intros i seq acc codes.
  - cbn [encode_bases take map]. rewrite app_nil_r. split.
    + intros [= <-]. repeat split. constructor.
    + intros (_ & _ & ->). reflexivity.
  - cbn [encode_bases]. unfold char_at.
    destruct (seq !! i) as [c|] eqn:E.
    + rewrite (nth_lookup_Some _ _ NUL _ E).
      rewrite (drop_S _ _ _ E). cbn [take length map].
      destruct (decide (c ∈ alphabet)) as [Hc | Hc].
      * destruct (base_to_code_valid c Hc) as [_ Hne].
        apply Z.eqb_neq in Hne. rewrite Hne, IH.
        rewrite Forall_cons, <- app_assoc. cbn [app].
        split; [intros (H1 & H2 & H3) | intros (H1 & (_ & H2) & H3)];
          repeat split; auto.
      * rewrite (base_to_code_invalid c Hc). cbn [Z.eqb Pos.eqb].
        rewrite Forall_cons. split; [discriminate | tauto].
    + rewrite nth_lookup, E. cbn [default].
      rewrite (base_to_code_invalid NUL NUL_invalid). cbn [Z.eqb Pos.eqb].
      apply lookup_ge_None in E. rewrite drop_ge by exact E.
      cbn [take length]. split; [discriminate | intros [[=] _]].
Qed.

Lemma handle_record_encoded_iff (K : nat) (line : list ascii) (codes : list Z) :
  handle_record K line = Encoded codes <->
  prefilter_skips (chomp line) = false /\
  (K <= length (chomp line))%nat /\
  Forall (fun c => c ∈ alphabet) (take K (chomp line)) /\
  codes = map base_to_code (take K (chomp line)).
Proof.
  unfold handle_record.
  destruct (prefilter_skips (chomp line)); [split; [discriminate | intros [[=] _]]|].
  pose proof (encode_bases_spec K 0 (chomp line) [] codes) as Hspec.
  rewrite drop_0, length_take in Hspec. cbn [app] in Hspec.
  destruct (encode_bases K 0 (chomp line) []) as [codes'|].
  - split.
    + intros [= ->]. destruct Hspec as [Hspec _].
      destruct (Hspec eq_refl) as (H1 & H2 & H3).
      repeat split; [lia | exact H2 | exact H3].
    + intros (_ & H1 & H2 & H3).
      destruct Hspec as [_ Hspec].
      f_equal. assert (Some codes' = Some codes) as [= ->]; [|reflexivity].
      apply Hspec. repeat split; [lia | exact H2 | exact H3].
  - split; [discriminate|].
    intros (_ & H1 & H2 & H3). destruct Hspec as [_ Hspec].
    assert (@None (list Z) = Some codes) as [=].
    apply Hspec. repeat split; [lia | exact H2 | exact H3].
Qed.

(** X14. A record is encoded exactly when it passes the pre-filter, its
    line has at least K symbols and the first K are all of A, C, G, T;
    what it contributes is then the codes of those K symbols, in order.
    Symbols after the first K are not looked at. *)
Theorem handle_record_encoded (K : nat) (line : list ascii) (codes : list Z) :
  handle_record K line = Encoded codes <->
  prefilter_skips (chomp line) = false /\
  (K <= length (chomp line))%nat /\
  Forall (fun c => c ∈ alphabet) (take K (chomp line)) /\
  codes = map base_to_code (take K (chomp line)).
Proof. apply handle_record_encoded_iff. Qed.

Lemma encoded_codes (K : nat) (line : list ascii) (codes : list Z) :
  handle_record K line = Encoded codes ->
  length codes = K /\ Forall is_code codes.
Proof.
  intros H. apply handle_record_encoded_iff in H as (_ & HK & Hvalid & ->).
  split.
  - rewrite length_map, length_take. lia.
  - apply Forall_forall. intros z Hz.
    apply list_elem_of_In, in_map_iff in Hz as (c & <- & Hc).
    apply list_elem_of_In in Hc.
    rewrite Forall_forall in Hvalid. now apply base_to_code_valid, Hvalid.
Qed.

(** ** What the loop accumulates *)

Lemma fastq_loop_invariant (fuel : nat) :
  forall (K N : nat) (stream : list ascii) (seq : option (list ascii))
         (enc : list Z) (total : nat) (enc' : list Z),
    fastq_loop fuel K N stream seq enc total = Finished enc' ->
    Forall is_code enc ->
    exists m : nat,
      length enc' = (length enc + m * K)%nat /\ Forall is_code enc' /\
      ((total < N)%nat -> (total + m <= N)%nat).
Proof.
  induction fuel as [|fuel IH]; intros K N stream seq enc total enc' H Henc;
    [discriminate|].
  cbn [fastq_loop] in H.
  destruct (gzgets MAX_LINE_LENGTH stream) as [[id s1]|].
  2:{ injection H as <-. exists O. repeat split; [lia | exact Henc | lia]. }
  destruct (gzgets_into seq s1) as [seq1 s2].
  destruct (gzgets_into None s2) as [b3 s3].
  destruct (gzgets_into None s3) as [b4 s4].
  destruct seq1 as [seq_str|]; [|discriminate].
  destruct (handle_record K seq_str) as [| |codes] eqn:E.
  - apply (IH _ _ _ _ _ _ _ H Henc).
  - discriminate.
  - destruct (encoded_codes _ _ _ E) as [Hlen Hcodes].
    assert (Forall is_code (enc ++ codes)) as Henc2
      by (apply Forall_app; split; assumption).
    destruct (Nat.eqb_spec (S total) N) as [HN | HN].
    + injection H as <-. exists 1%nat. rewrite length_app.
      repeat split; [lia | exact Henc2 | lia].
    + destruct (IH _ _ _ _ _ _ _ H Henc2) as (m & Hm & Hc & Hb).
      exists (S m). rewrite length_app in Hm.
      repeat split; [lia | exact Hc | lia].
Qed.

(** X15. When the loop ends normally, what it has accumulated is a whole
    number m of windows of K codes, every code in [0,3], and with
    num_reads > 0 at most num_reads windows: the codes fit in the
    kmer_length * num_reads cells that were allocated. *)
Theorem read_records_invariant (K N : nat) (text : list ascii) (enc : list Z) :
  read_records K N text = Finished enc ->
  Forall (fun c => 0 <= c <= 3) enc /\
  exists m : nat, length enc = (m * K)%nat /\ (N = 0 \/ m <= N)%nat.
Proof.
  intros H. unfold read_records in H.
  destruct (fastq_loop_invariant _ _ _ _ _ _ _ _ H) as (m & Hm & Hc & Hb);
    [constructor|].
  split; [exact Hc|]. exists m. cbn [length] in Hm.
  split; [lia|]. destruct N; [left; reflexivity | right; lia].
Qed.

Lemma read_records_invariant_witness :
  read_records 32 1 (fastq_record read_id good_read)
    = Finished (map base_to_code good_read) /\
  Forall (fun c => 0 <= c <= 3) (map base_to_code good_read) /\
  exists m : nat,
    length (map base_to_code good_read) = (m * 32)%nat /\
    (1 = 0 \/ m <= 1)%nat.
Proof.
  assert (H : read_records 32 1 (fastq_record read_id good_read)
              = Finished (map base_to_code good_read)) by reflexivity.
  split; [exact H | exact (read_records_invariant _ _ _ _ H)].
Defined.

(** ** [process_fastq] and the file system *)

Section ProcessFastq.

Variable gz_text : list Z -> list ascii.

Lemma process_fastq_returned
    (w : world) (input_file output_file : string) (N K : nat)
    (w' : world) (n : nat) :
  process_fastq gz_text w input_file output_file N K = Returned w' n ->
  (is_Some (disk w !! output_file) /\ n = O /\ disk w' = disk w) \/
  (disk w !! output_file = None /\
   exists gz enc,
     disk w !! input_file = Some gz /\
     read_records K N (gz_text gz) = Finished enc /\
     w' = save_large_array_to_file w output_file enc /\ n = length enc).
Proof.
  unfold process_fastq.
  destruct (decide (is_Some (disk w !! output_file))) as [Hex | Hnex].
  - intros [= <- <-]. left. repeat split. exact Hex.
  - intros H. apply eq_None_not_Some in Hnex. right. split; [exact Hnex|].
    revert H. destruct (disk w !! input_file) as [gz|]; [|discriminate].
    unfold after_loop.
    destruct (read_records K N (gz_text gz)) as [enc| | |] eqn:E;
      try discriminate.
    intros [= <- <-]. exists gz, enc. repeat split. exact E.
Qed.

Lemma process_fastq_exited
    (w : world) (input_file output_file : string) (N K : nat)
    (w' : world) (status : Z) :
  process_fastq gz_text w input_file output_file N K = Exited w' status ->
  status = EXIT_FAILURE /\ exists msg, w' = emit (Stderr msg) w.
Proof.
  unfold process_fastq.
  destruct (decide (is_Some (disk w !! output_file))); [discriminate|].
  destruct (disk w !! input_file) as [gz|].
  - unfold after_loop.
    destruct (read_records K N (gz_text gz)) as [enc|s| |]; try discriminate.
    intros [= <- <-]. split; [reflexivity | eauto].
  - intros [= <- <-]. split; [reflexivity | unfold perror; eauto].
Qed.

(** X16. When [process_fastq] ends the process (the input cannot be
    opened, or a record has an invalid base), the exit status is
    EXIT_FAILURE, one message has gone to stderr and the disk is as
    before: codes of earlier records are dropped, no output file is
    left. *)
Theorem process_fastq_failure_keeps_disk
    (w : world) (input_file output_file : string) (N K : nat)
    (w' : world) (status : Z) :
  process_fastq gz_text w input_file output_file N K = Exited w' status ->
  status = EXIT_FAILURE /\ disk w' = disk w /\
  exists msg, console w' = console w ++ [Stderr msg].
Proof.
  intros H. apply process_fastq_exited in H as (-> & msg & ->).
  repeat split. exists msg. reflexivity.
Qed.

(** X17. [process_fastq] changes no file other than its output file. *)
Theorem process_fastq_frame
    (w : world) (input_file output_file other : string) (N K : nat)
    (w' : world) (n : nat) :
  process_fastq gz_text w input_file output_file N K = Returned w' n ->
  other <> output_file ->
  disk w' !! other = disk w !! other.
Proof.
  intros H Hne.
  apply process_fastq_returned in H
    as [(_ & _ & ->) | (_ & gz & enc & _ & _ & -> & _)]; [reflexivity|].
  unfold save_large_array_to_file.
  destruct (decide (output_file ∈ read_only w)); [reflexivity|].
  unfold store. cbn [disk]. now rewrite lookup_insert_ne.
Qed.

(** X18. When the output file did not exist and can be written, the
    value [process_fastq] returns is the count a reader needs: the file
    holds ceil(n/4) bytes, and reading it with count n gives n codes in
    [0,3] that pack to that very file. *)
Theorem process_fastq_output_decodes
    (w : world) (input_file output_file : string) (N K : nat)
    (w' : world) (n : nat) :
  disk w !! output_file = None -> output_file ∉ read_only w ->
  process_fastq gz_text w input_file output_file N K = Returned w' n ->
  exists file,
    disk w' !! output_file = Some file /\
    length file = ((n + 3) / 4)%nat /\
    length (unpack file n) = n /\
    Forall (fun c => 0 <= c <= 3) (unpack file n) /\
    pack (unpack file n) = file.
Proof.
  intros Hnone Hw H.
  apply process_fastq_returned in H
    as [([x Hx] & _) | (_ & gz & enc & _ & Hrun & -> & ->)]; [congruence|].
  unfold read_records in Hrun.
  destruct (fastq_loop_invariant _ _ _ _ _ _ _ _ Hrun) as (_ & _ & Hc & _);
    [constructor|].
  exists (pack enc). unfold save_large_array_to_file.
  destruct (decide (output_file ∈ read_only w)); [contradiction|].
  unfold store. cbn [disk]. rewrite lookup_insert_eq.
  assert (unpack (pack enc) (length enc) = enc) as ->
    by (unfold unpack, reader_init; now apply unpack_pack_codes).
  repeat split; [apply pack_length | exact Hc].
Qed.

(** X19. A second run on the same output path does nothing: once
    [process_fastq] has returned for a writable output path, calling it
    again for that path, with any input and parameters, returns 0 and
    leaves the disk as the first run left it. *)
Theorem process_fastq_rerun
    (w : world) (input_file output_file : string) (N K : nat)
    (w1 : world) (n : nat)
    (input_file' : string) (N' K' : nat) :
  output_file ∉ read_only w ->
  process_fastq gz_text w input_file output_file N K = Returned w1 n ->
  exists w2,
    process_fastq gz_text w1 input_file' output_file N' K' = Returned w2 0 /\
    disk w2 = disk w1.
Proof.
  intros Hw H.
  assert (is_Some (disk w1 !! output_file)) as Hex.
  { apply process_fastq_returned in H
      as [(Hex & _ & ->) | (_ & gz & enc & _ & _ & -> & _)]; [exact Hex|].
    unfold save_large_array_to_file.
    destruct (decide (output_file ∈ read_only w)); [contradiction|].
    unfold store. cbn [disk]. rewrite lookup_insert_eq. eauto. }
  unfold process_fastq.
  destruct (decide (is_Some (disk w1 !! output_file))); [|contradiction].
  eexists. split; reflexivity.
Qed.


End ProcessFastq.

Lemma process_fastq_failure_keeps_disk_witness :
  process_fastq plain_text lowercase_world "reads.fq" "out.bin" 1 32
    = Exited (emit (Stderr ("Invalid base in sequence: " +:+
                            string_of_list_ascii lowercase_read +:+ newline))
                lowercase_world) EXIT_FAILURE /\
  EXIT_FAILURE = EXIT_FAILURE /\
  disk (emit (Stderr ("Invalid base in sequence: " +:+
                      string_of_list_ascii lowercase_read +:+ newline))
          lowercase_world) = disk lowercase_world /\
  exists msg,
    console (emit (Stderr ("Invalid base in sequence: " +:+
                           string_of_list_ascii lowercase_read +:+ newline))
               lowercase_world)
    = console lowercase_world ++ [Stderr msg].
Proof.
  assert (H : process_fastq plain_text lowercase_world "reads.fq" "out.bin"
                1 32
              = Exited (emit (Stderr ("Invalid base in sequence: " +:+
                                string_of_list_ascii lowercase_read +:+
                                newline)) lowercase_world) EXIT_FAILURE)
    by reflexivity.
  split; [exact H|].
  exact (process_fastq_failure_keeps_disk plain_text _ _ _ _ _ _ _ H).
Defined.

Lemma process_fastq_frame_witness :
  process_fastq plain_text good_world "reads.fq" "out.bin" 1 32
    = Returned (store "out.bin" (replicate 8 0x1B) good_world) 32 /\
  "reads.fq" <> "out.bin" /\
  disk (store "out.bin" (replicate 8 0x1B) good_world) !! "reads.fq"
    = disk good_world !! "reads.fq".
Proof.
  assert (H : process_fastq plain_text good_world "reads.fq" "out.bin" 1 32
              = Returned (store "out.bin" (replicate 8 0x1B) good_world) 32)
    by reflexivity.
  assert (Hne : "reads.fq" <> "out.bin") by discriminate.
  split; [exact H|]. split; [exact Hne|].
  exact (process_fastq_frame plain_text _ _ _ _ _ _ _ _ H Hne).
Defined.

Lemma process_fastq_output_decodes_witness :
  disk good_world !! "out.bin" = None /\
  ("out.bin" ∉ read_only good_world) /\
  process_fastq plain_text good_world "reads.fq" "out.bin" 1 32
    = Returned (store "out.bin" (replicate 8 0x1B) good_world) 32 /\
  exists file,
    disk (store "out.bin" (replicate 8 0x1B) good_world) !! "out.bin"
      = Some file /\
    length file = ((32 + 3) / 4)%nat /\
    length (unpack file 32) = 32%nat /\
    Forall (fun c => 0 <= c <= 3) (unpack file 32) /\
    pack (unpack file 32) = file.
Proof.
  assert (H1 : disk good_world !! "out.bin" = None) by reflexivity.
  assert (H2 : "out.bin" ∉ read_only good_world)
    by (cbn [read_only good_world sample_world]; apply not_elem_of_empty).
  assert (H3 : process_fastq plain_text good_world "reads.fq" "out.bin" 1 32
               = Returned (store "out.bin" (replicate 8 0x1B) good_world) 32)
    by reflexivity.
  split; [exact H1|]. split; [exact H2|]. split; [exact H3|].
  exact (process_fastq_output_decodes plain_text _ _ _ _ _ _ _ H1 H2 H3).
Defined.

Lemma process_fastq_rerun_witness :
  ("out.bin" ∉ read_only good_world) /\
  process_fastq plain_text good_world "reads.fq" "out.bin" 1 32
    = Returned (store "out.bin" (replicate 8 0x1B) good_world) 32 /\
  exists w2,
    process_fastq plain_text (store "out.bin" (replicate 8 0x1B) good_world)
      "reads.fq" "out.bin" 5 16 = Returned w2 0 /\
    disk w2 = disk (store "out.bin" (replicate 8 0x1B) good_world).
Proof.
  assert (H2 : "out.bin" ∉ read_only good_world)
    by (cbn [read_only good_world sample_world]; apply not_elem_of_empty).
  assert (H3 : process_fastq plain_text good_world "reads.fq" "out.bin" 1 32
               = Returned (store "out.bin" (replicate 8 0x1B) good_world) 32)
    by reflexivity.
  split; [exact H2|]. split; [exact H3|].
  exact (process_fastq_rerun plain_text _ _ _ _ _ _ _ "reads.fq" 5%nat 16%nat
           H2 H3).
Defined.


(** ** Well-formed input *)

Lemma gzgets_copy_line (l : list ascii) :
  forall (room : nat) (rest : list ascii),
    LF ∉ l -> (length l < room)%nat ->
    gzgets_copy room (l ++ LF :: rest) = (l ++ [LF], rest).
Proof.
  induction l as [|c l IH]; intros room rest HLF Hroom;
    (destruct room as [|room]; [cbn in Hroom; lia|]); cbn [app gzgets_copy].
  - now rewrite Ascii.eqb_refl.
  - apply not_elem_of_cons in HLF as [Hc Hl].
    destruct (Ascii.eqb_spec c LF) as [->|_]; [contradiction|].
    rewrite IH; [reflexivity | exact Hl | cbn [length] in Hroom; lia].
Qed.

Lemma gzgets_line (l rest : list ascii) :
  whole_line l ->
  gzgets MAX_LINE_LENGTH (l ++ LF :: rest) = Some (l ++ [LF], rest).
Proof.
  intros [HLF Hlen]. unfold gzgets.
  destruct (l ++ LF :: rest) as [|c s] eqn:E.
  - now destruct l.
  - rewrite <- E. f_equal. apply gzgets_copy_line; [exact HLF | lia].
Qed.

Lemma gzgets_into_line (buf : option (list ascii)) (l rest : list ascii) :
  whole_line l ->
  gzgets_into buf (l ++ LF :: rest) = (Some (c_str (l ++ [LF])), rest).
Proof. intros H. unfold gzgets_into. now rewrite gzgets_line. Qed.

Lemma c_str_plain (l : list ascii) :
  NUL ∉ l -> LF ∉ l -> c_str (l ++ [LF]) = l ++ [LF].
Proof.
  intros HNUL HLF. unfold c_str. rewrite strcspn_all; [apply firstn_all|].
  apply Forall_app. split.
  - apply Forall_forall. intros x Hx. unfold ascii_in. cbn [existsb].
    destruct (Ascii.eqb_spec x NUL) as [->|_]; [contradiction | reflexivity].
  - constructor; [reflexivity | constructor].
Qed.

Lemma handle_record_line (K : nat) (l : list ascii) :
  CR ∉ l -> LF ∉ l ->
  handle_record K (l ++ [LF]) = handle_record K l /\ chomp (l ++ [LF]) = l.
Proof.
  intros HCR HLF. pose proof (not_line_end l HCR HLF) as Hs.
  assert (chomp (l ++ [LF]) = l) as H1.
  { unfold chomp. rewrite strcspn_app_hit by (exact Hs || reflexivity).
    apply take_app_length. }
  assert (chomp l = l) as H2.
  { unfold chomp. rewrite strcspn_all by exact Hs. apply firstn_all. }
  split; [|exact H1]. unfold handle_record. now rewrite H1, H2.
Qed.

Lemma entry_text_app (e : entry) (rest : list ascii) :
  entry_text e ++ rest =
  e_id e ++ LF :: (e_seq e ++ LF :: (e_plus e ++ LF :: (e_qual e ++ LF :: rest))).
Proof.
  unfold entry_text.
  repeat (rewrite <- ?app_assoc; cbn [app]). reflexivity.
Qed.

Lemma fastq_loop_entries (K N : nat) (es : list entry) :
  Forall whole_entry es -> Forall (encodable K) es ->
  forall (fuel : nat) (seq0 : option (list ascii)) (enc : list Z) (total : nat),
    (length (fastq_text es) < fuel)%nat -> (total < N)%nat ->
    fastq_loop fuel K N (fastq_text es) seq0 enc total =
    Finished (enc ++ flat_map (entry_codes K)
                       (take (N - total) (List.filter accepted es))).
Proof.
  intros Hwhole Henc.
  induction Hwhole as [|e es He _ IH]; intros fuel seq0 enc total Hfuel Htot.
  - destruct fuel; [cbn in Hfuel; lia|]. cbn. now rewrite take_nil, app_nil_r.
  - apply Forall_cons in Henc as [Hence Henc].
    destruct He as (Hid & Hseq & [HNUL HCR] & Hplus & Hqual).
    destruct fuel as [|fuel]; [lia|].
    cbn [fastq_text flat_map] in Hfuel |- *. fold (fastq_text es) in Hfuel |- *.
    rewrite entry_text_app in Hfuel |- *. cbn [fastq_loop].
    rewrite gzgets_line by exact Hid.
    rewrite !gzgets_into_line by assumption.
    rewrite (c_str_plain _ HNUL (proj1 Hseq)).
    destruct (handle_record_line K (e_seq e) HCR (proj1 Hseq)) as [-> ->].
    assert (length (fastq_text es) < fuel)%nat as Hfuel'.
    { repeat (rewrite length_app in Hfuel; cbn [length] in Hfuel). lia. }
    cbn [List.filter]. unfold accepted at 1. unfold encodable, accepted in Hence.
    assert (chomp (e_seq e) = e_seq e) as Hchomp.
    { unfold chomp.
      rewrite strcspn_all by (apply not_line_end; [exact HCR | exact (proj1 Hseq)]).
      apply firstn_all. }
    destruct (prefilter_skips (e_seq e)) eqn:Hskip; cbn [negb].
    + assert (handle_record K (e_seq e) = Skipped) as ->.
      { apply handle_record_skipped. now rewrite Hchomp. }
      apply IH; assumption.
    + destruct (Hence eq_refl) as [HK Hvalid].
      assert (handle_record K (e_seq e) = Encoded (entry_codes K e)) as ->.
      { apply handle_record_encoded_iff. rewrite Hchomp.
        repeat split; assumption. }
      destruct (Nat.eqb_spec (S total) N) as [HN | HN].
      * replace (N - total)%nat with 1%nat by lia.
        cbn [take flat_map]. now rewrite take_0, app_nil_r.
      * replace (N - total)%nat with (S (N - S total)) by lia.
        cbn [take flat_map]. rewrite IH by (assumption || lia).
        now rewrite app_assoc.
Qed.

(** X21. On a text of four-line records, each line ended by LF and
    short enough for the buffer, in which every record that passes the
    pre-filter has K symbols of A, C, G, T to encode, the loop (with
    num_reads > 0) yields the codes of the first K symbols of the first
    num_reads records that pass the pre-filter, in the order of the
    text; records that fail it contribute nothing. *)
Theorem read_records_well_formed (K N : nat) (es : list entry) :
  Forall whole_entry es -> Forall (encodable K) es -> (0 < N)%nat ->
  read_records K N (fastq_text es) =
  Finished (flat_map (entry_codes K) (take N (List.filter accepted es))).
Proof.
  intros Hwhole Henc HN. unfold read_records.
  rewrite (fastq_loop_entries K N es Hwhole Henc) by lia.
  cbn [app]. now rewrite Nat.sub_0_r.
Qed.

Lemma read_records_well_formed_witness :
  Forall whole_entry sample_entries /\
  Forall (encodable 32) sample_entries /\ (0 < 5)%nat /\
  read_records 32 5 (fastq_text sample_entries) =
  Finished (flat_map (entry_codes 32)
              (take 5 (List.filter accepted sample_entries))).
Proof.
  assert (H1 : Forall whole_entry sample_entries).
  { unfold sample_entries, whole_entry, whole_line, plain_symbols.
    repeat constructor; cbn [e_id e_seq e_plus e_qual];
      try by_decide; vm_compute; lia. }
  assert (H2 : Forall (encodable 32) sample_entries).
  { unfold sample_entries, encodable.
    repeat constructor;
      match goal with
      | H : accepted _ = true |- _ => vm_compute in H; discriminate
      end. }
  assert (H3 : (0 < 5)%nat) by lia.
  split; [exact H1|]. split; [exact H2|]. split; [exact H3|].
  exact (read_records_well_formed 32 5 sample_entries H1 H2 H3).
Defined.

(** * [get_basename] *)

Lemma strrchr_none (s : list ascii) (c : ascii) :
  c ∉ s -> strrchr s c = None.
Proof.
  induction s as [|x s IH]; intros H; [reflexivity|].
  apply not_elem_of_cons in H as [Hx Hs]. cbn [strrchr]. rewrite IH by exact Hs.
  destruct (Ascii.eqb_spec x c) as [->|_]; [contradiction | reflexivity].
Qed.

Lemma strrchr_last (dir base : list ascii) (c : ascii) :
  c ∉ base -> strrchr (dir ++ c :: base) c = Some (length dir).
Proof.
  intros Hbase. induction dir as [|x dir IH]; cbn [app strrchr length].
  - now rewrite strrchr_none, Ascii.eqb_refl.
  - now rewrite IH.
Qed.

Lemma get_basename_slash (dir base : list ascii) :
  SLASH ∉ base -> get_basename (dir ++ SLASH :: base) = base.
Proof.
  intros H. unfold get_basename. rewrite strrchr_last by exact H.
  rewrite (cons_middle SLASH dir base), app_assoc.
  apply drop_app_length'. rewrite length_app. cbn. lia.
Qed.

Lemma get_basename_backslash (dir base : list ascii) :
  SLASH ∉ dir -> SLASH ∉ base -> BACKSLASH ∉ base ->
  get_basename (dir ++ BACKSLASH :: base) = base.
Proof.
  intros Hd Hb Hbs. unfold get_basename.
  rewrite (strrchr_none _ SLASH).
  - rewrite strrchr_last by exact Hbs.
    rewrite (cons_middle BACKSLASH dir base), app_assoc.
    apply drop_app_length'. rewrite length_app. cbn. lia.
  - rewrite elem_of_app, elem_of_cons. intros [?|[[=]|?]]; contradiction.
Qed.

Lemma get_basename_plain (p : list ascii) :
  SLASH ∉ p -> BACKSLASH ∉ p -> get_basename p = p.
Proof.
  intros H1 H2. unfold get_basename. now rewrite !strrchr_none.
Qed.

(** X22. The base name of a path with a '/' is what follows its last
    '/'; backslashes in that part are kept. *)
Theorem get_basename_after_last_slash (dir base : list ascii) :
  SLASH ∉ base -> get_basename (dir ++ SLASH :: base) = base.
Proof. apply get_basename_slash. Qed.

(** X23. A path without '/' is cut after its last backslash, and is
    returned whole when it has no backslash either. *)
Theorem get_basename_without_slash (dir base : list ascii) :
  SLASH ∉ dir -> SLASH ∉ base -> BACKSLASH ∉ base ->
  get_basename (dir ++ BACKSLASH :: base) = base /\ get_basename base = base.
Proof.
  intros Hd Hb Hbs. split.
  - now apply get_basename_backslash.
  - now apply get_basename_plain.
Qed.

(** X24. Whatever the path, the base name is a suffix of it and holds
    no '/'. *)
Theorem get_basename_suffix (p : list ascii) :
  (exists dir, p = dir ++ get_basename p) /\ SLASH ∉ get_basename p.
Proof.
  destruct (decide (SLASH ∈ p)) as [Hs | Hs].
  - apply list_elem_of_split_r in Hs as (dir & base & -> & Hbase).
    rewrite get_basename_slash by exact Hbase. split; [|exact Hbase].
    exists (dir ++ [SLASH]). now rewrite <- app_assoc.
  - destruct (decide (BACKSLASH ∈ p)) as [Hb | Hb].
    + apply list_elem_of_split_r in Hb as (dir & base & -> & Hbase).
      apply not_elem_of_app in Hs as [Hd Hs'].
      apply not_elem_of_cons in Hs' as [_ Hs'].
      rewrite get_basename_backslash by assumption. split; [|exact Hs'].
      exists (dir ++ [BACKSLASH]). now rewrite <- app_assoc.
    + rewrite get_basename_plain by assumption. split; [|exact Hs].
      now exists [].
Qed.

Lemma get_basename_after_last_slash_witness :
  (SLASH ∉ windows_dir ++ BACKSLASH :: file_name) /\
  get_basename (unix_dir ++ SLASH :: windows_dir ++ BACKSLASH :: file_name)
  = windows_dir ++ BACKSLASH :: file_name.
Proof.
  assert (H : SLASH ∉ windows_dir ++ BACKSLASH :: file_name) by by_decide.
  split; [exact H | exact (get_basename_after_last_slash unix_dir _ H)].
Defined.

Lemma get_basename_without_slash_witness :
  (SLASH ∉ windows_dir) /\ (SLASH ∉ file_name) /\
  (BACKSLASH ∉ file_name) /\
  get_basename (windows_dir ++ BACKSLASH :: file_name) = file_name /\
  get_basename file_name = file_name.
Proof.
  assert (H1 : SLASH ∉ windows_dir) by by_decide.
  assert (H2 : SLASH ∉ file_name) by by_decide.
  assert (H3 : BACKSLASH ∉ file_name) by by_decide.
  split; [exact H1|]. split; [exact H2|]. split; [exact H3|].
  exact (get_basename_without_slash windows_dir file_name H1 H2 H3).
Defined.

(** * The example program *)

Section ExampleMain.
Import Example.

Variable rand : nat -> N.
Variable fresh : nat -> Z.

Lemma fill_codes (n : nat) : Forall is_code (fill rand n).
Proof.
  unfold fill. apply Forall_forall. intros z Hz.
  apply list_elem_of_In, in_map_iff in Hz as (i & <- & _).
  pose proof (Z.rem_bound_pos (Z.of_N (rand i)) 4) as H.
  assert (is_code (Z.rem (Z.of_N (rand i)) 4)) as Hc
    by (unfold is_code; lia).
  now rewrite to_uint8_code.
Qed.

Lemma fill_length (n : nat) : length (fill rand n) = n.
Proof. unfold fill. now rewrite length_map, length_seq. Qed.

Lemma uninitialised_length (n : nat) : length (uninitialised fresh n) = n.
Proof. unfold uninitialised. now rewrite length_map, length_seq. Qed.

Lemma first_mismatch_same (l : list Z) :
  forall i, first_mismatch i l l = None.
Proof.
  induction l as [|a l IH]; intros i; [reflexivity|].
  cbn [first_mismatch]. now rewrite Z.eqb_refl.
Qed.

Lemma print_values (vs : list Z) :
  forall w,
    let w' := fold_left (fun w v => emit (Stdout (pretty v +:+ " ")) w) vs w in
    disk w' = disk w /\ read_only w' = read_only w /\
    console w' =
      console w ++ map (fun v => Stdout (pretty v +:+ " ")) vs.
Proof.
  induction vs as [|v vs IH]; intros w; cbn zeta.
  - cbn. now rewrite app_nil_r.
  - cbn [fold_left map]. destruct (IH (emit (Stdout (pretty v +:+ " ")) w))
      as (Hd & Hr & Hc).
    cbn zeta in Hd, Hr, Hc. rewrite Hd, Hr, Hc. cbn [emit disk read_only console].
    now rewrite <- app_assoc.
Qed.

Lemma print_first_10_world (a : list Z) (w : world) :
  disk (print_first_10 a w) = disk w /\
  read_only (print_first_10 a w) = read_only w /\
  console (print_first_10 a w) =
    console w ++ map (fun v => Stdout (pretty v +:+ " ")) (take 10 a)
              ++ [Stdout newline].
Proof.
  unfold print_first_10. destruct (print_values (take 10 a) w) as (Hd & Hr & Hc).
  cbn zeta in Hd, Hr, Hc. cbn [emit disk read_only console].
  rewrite Hd, Hr, Hc. now rewrite <- app_assoc.
Qed.

Lemma packed_size : ((size + 3) / 4)%nat = Z.to_nat 8000000.
Proof.
  unfold size. apply Nat2Z.inj.
  rewrite Nat2Z.inj_div, Nat2Z.inj_add, !Z2Nat.id by lia. reflexivity.
Qed.

(** X25. Whenever the file [output_large.bin] can be opened for writing,
    the example program ends with status 0 after printing the first ten
    values, the same ten values as read back, and "Arrays match
    perfectly!", never a mismatch; the file it leaves holds the packed
    array, 8000000 bytes for the 32000000 values. *)
Theorem example_main_matches (w : world) :
  output_large ∉ read_only w ->
  exists w',
    main rand fresh w = (w', 0) /\
    disk w' = <[output_large := pack (fill rand size)]> (disk w) /\
    length (pack (fill rand size)) = Z.to_nat 8000000 /\
    console w' =
      console w
      ++ (map (fun v => Stdout (pretty v +:+ " ")) (take 10 (fill rand size))
          ++ [Stdout newline])
      ++ (map (fun v => Stdout (pretty v +:+ " ")) (take 10 (fill rand size))
          ++ [Stdout newline])
      ++ [Stdout ("Arrays match perfectly!" +:+ newline)].
Proof.
  intros Hw. unfold main.
  remember (fill rand size) as arr eqn:Harr.
  assert (length arr = size) as Hlen by (subst arr; apply fill_length).
  assert (Forall is_code arr) as Hcodes by (subst arr; apply fill_codes).
  destruct (print_first_10_world arr w) as (Hd1 & Hr1 & Hc1).
  unfold save_large_array_to_file.
  destruct (decide (output_large ∈ read_only (print_first_10 arr w)))
    as [Hin | _]; [rewrite Hr1 in Hin; contradiction|].
  unfold read_large_array_from_file, store. cbn [disk].
  rewrite lookup_insert_eq.
  assert (unpack (pack arr) size = arr) as ->.
  { rewrite <- Hlen. unfold unpack, reader_init. now apply unpack_pack_codes. }
  rewrite drop_ge by (rewrite uninitialised_length; lia).
  rewrite app_nil_r, first_mismatch_same.
  eexists. split; [reflexivity|].
  match goal with
  | |- context [print_first_10 arr ?w1] =>
      destruct (print_first_10_world arr w1) as (Hd2 & Hr2 & Hc2)
  end.
  cbn [emit disk console] in *. repeat split.
  - now rewrite Hd2, Hd1.
  - rewrite pack_length, Hlen. apply packed_size.
  - rewrite Hc2, Hc1. now rewrite <- !app_assoc.
Qed.

End ExampleMain.

Lemma example_main_matches_witness :
  (Example.output_large ∉ read_only (World ∅ ∅ [])) /\
  exists w',
    Example.main (fun _ => 7%N) (fun _ => 0) (World ∅ ∅ []) = (w', 0) /\
    disk w' =
      <[Example.output_large :=
          pack (Example.fill (fun _ => 7%N) Example.size)]>
        (disk (World ∅ ∅ [])) /\
    length (pack (Example.fill (fun _ => 7%N) Example.size))
      = Z.to_nat 8000000 /\
    console w' =
      console (World ∅ ∅ [])
      ++ (map (fun v => Stdout (pretty v +:+ " "))
            (take 10 (Example.fill (fun _ => 7%N) Example.size))
          ++ [Stdout newline])
      ++ (map (fun v => Stdout (pretty v +:+ " "))
            (take 10 (Example.fill (fun _ => 7%N) Example.size))
          ++ [Stdout newline])
      ++ [Stdout ("Arrays match perfectly!" +:+ newline)].
Proof.
  assert (H : Example.output_large ∉ read_only (World ∅ ∅ []))
    by (cbn [read_only]; apply not_elem_of_empty).
  split; [exact H|].
  exact (example_main_matches (fun _ => 7%N) (fun _ => 0) (World ∅ ∅ []) H).
Defined.

(** * The command line *)

Section CommandLineProperties.
Import Cli.

Variable atoi : string -> Z.

Lemma list_ind2 {A : Type} (P : list A -> Prop) :
  P [] -> (forall a, P [a]) -> (forall a b l, P l -> P (a :: b :: l)) ->
  forall l, P l.
Proof.
  intros H0 H1 H2. fix IH 1. intros [|a [|b l]].
  - exact H0.
  - apply H1.
  - apply H2, IH.
Qed.

(** The two tests on [argv[i]] pass exactly for a dash and one letter. *)
Lemma flag_shape (flag : string) :
  negb (Ascii.eqb (string_at flag 0) "-") = false /\
  negb (String.length flag =? 2)%nat = false <->
  flag = flag_of (string_at flag 1).
Proof.
  destruct flag as [|c0 [|c1 [|c2 rest]]]; cbn; split;
    try (intros [H1 H2]; discriminate); try discriminate.
  - intros [H _]. apply negb_false_iff, Ascii.eqb_eq in H. now subst.
  - intros [= ->]. split; reflexivity.
Qed.

Lemma set_option_letters (c : ascii) (v : string) (o : options) :
  is_Some (set_option atoi c v o) <-> c ∈ option_letters.
Proof.
  unfold set_option, option_letters. rewrite !elem_of_cons, elem_of_nil.
  destruct (Ascii.eqb_spec c "o"); [split; eauto|].
  destruct (Ascii.eqb_spec c "q"); [split; eauto 10|].
  destruct (Ascii.eqb_spec c "i"); [split; eauto 10|].
  destruct (Ascii.eqb_spec c "n"); [split; eauto 10|].
  destruct (Ascii.eqb_spec c "k"); [split; eauto 10|].
  destruct (Ascii.eqb_spec c "l"); [split; eauto 10|].
  split; [intros [x [=]] | intros [?|[?|[?|[?|[?|[?|[]]]]]]]; contradiction].
Qed.

Lemma parse_args_flag (c : ascii) (v : string) (rest : list string)
    (o : options) :
  parse_args atoi (flag_of c :: v :: rest) o =
  match set_option atoi c v o with
  | Some o' => parse_args atoi rest o'
  | None => None
  end.
Proof. cbn [parse_args]. reflexivity. Qed.

Lemma parse_args_bad_flag (flag v : string) (rest : list string)
    (o : options) :
  flag <> flag_of (string_at flag 1) ->
  parse_args atoi (flag :: v :: rest) o = None.
Proof.
  intros H. cbn [parse_args].
  destruct (negb (Ascii.eqb (string_at flag 0) "-")) eqn:E1; [reflexivity|].
  destruct (negb (String.length flag =? 2)%nat) eqn:E2; [reflexivity|].
  contradiction H. now apply flag_shape.
Qed.

(** X26. The command lines the option loop accepts are exactly the
    sequences of pairs [-x value] with x one of o, q, i, n, k, l: a
    missing value, an argument that is not a dash and one letter, or an
    unknown letter leads to the usage message. *)
Theorem parse_args_accepts (args : list string) (o : options) :
  is_Some (parse_args atoi args o) <->
  exists pairs : list (ascii * string),
    args = flat_map (fun p => [flag_of (fst p); snd p]) pairs /\
    Forall (fun p => fst p ∈ option_letters) pairs.
Proof.
  split.
  - revert o. induction args as [|a|flag v rest IH] using list_ind2; intros o H.
    + exists []. split; [reflexivity | constructor].
    + destruct H as [x [=]].
    + destruct (decide (flag = flag_of (string_at flag 1))) as [Hf | Hf].
      2:{ rewrite parse_args_bad_flag in H by exact Hf. destruct H as [x [=]]. }
      rewrite Hf, parse_args_flag in H.
      destruct (set_option atoi (string_at flag 1) v o) as [o'|] eqn:E;
        [|destruct H as [x [=]]].
      destruct (IH o' H) as (pairs & -> & Hall).
      exists ((string_at flag 1, v) :: pairs). split.
      * cbn [flat_map fst snd app]. now rewrite <- Hf.
      * constructor; [|exact Hall]. cbn [fst].
        apply (set_option_letters _ v o). rewrite E. eauto.
  - intros (pairs & -> & Hall). revert o.
    induction Hall as [|[c v] pairs Hc _ IH]; intros o; [cbn; eauto|].
    cbn [flat_map fst snd app]. rewrite parse_args_flag.
    cbn [fst] in Hc. apply (set_option_letters c v o) in Hc as [o' ->].
    apply IH.
Qed.


End CommandLineProperties.

(** * The batch over a list file *)

Section BatchProperties.
Import Cli.

Variable gz_text : list Z -> list ascii.
Variable atoi : string -> Z.

Lemma bytes_of_app (a b : list ascii) :
  bytes_of (a ++ b) = bytes_of a ++ bytes_of b.
Proof. unfold bytes_of. apply map_app. Qed.

Lemma append_file_log (log : string) (text : list ascii) (w : world)
    (base : list Z) :
  disk w !! log = Some base ->
  disk (append_file log text w) !! log = Some (base ++ bytes_of text).
Proof.
  intros H. unfold append_file, store. cbn [disk].
  now rewrite lookup_insert_eq, H.
Qed.

(** [process_fastq] leaves an existing file alone. *)
Lemma process_fastq_keeps_existing
    (w : world) (input_file output_file log : string) (N K : nat)
    (w' : world) (n : nat) :
  is_Some (disk w !! log) ->
  process_fastq gz_text w input_file output_file N K = Returned w' n ->
  disk w' !! log = disk w !! log.
Proof.
  intros Hlog H.
  apply process_fastq_returned in H
    as [(_ & _ & ->) | (Hnone & gz & enc & _ & _ & -> & _)]; [reflexivity|].
  unfold save_large_array_to_file.
  destruct (decide (output_file ∈ read_only w)); [reflexivity|].
  unfold store. cbn [disk]. apply lookup_insert_ne.
  intros ->. destruct Hlog as [x Hx]. congruence.
Qed.

Lemma whole_path_buffer (p : list ascii) :
  whole_path p -> chomp (c_str (p ++ [LF])) = p.
Proof.
  intros [[HLF _] [HNUL HCR]]. rewrite c_str_plain by assumption.
  exact (proj2 (handle_record_line 0 p HCR HLF)).
Qed.

Lemma batch_loop_paths (log : string) (N K : nat) (paths : list (list ascii)) :
  Forall whole_path paths ->
  forall (fuel : nat) (w : world) (pending : list ascii) (base : list Z),
    (length (list_text paths) < fuel)%nat ->
    disk w !! log = Some base ->
    match batch_loop gz_text fuel log N K w pending (list_text paths) with
    | Returned w' status =>
        status = EXIT_SUCCESS /\
        exists totals : list nat,
          length totals = length paths /\
          disk w' !! log =
            Some (base ++ bytes_of
                    (pending ++ manifest (zip (map out_name paths) totals)))
    | Exited w' status =>
        status = EXIT_FAILURE /\
        exists totals : list nat,
          (length totals < length paths)%nat /\
          disk w' !! log =
            Some (base ++ bytes_of
                    (pending ++ manifest (zip (map out_name paths) totals)))
    | Undefined => True
    end.
Proof.
  intros Hpaths.
  induction Hpaths as [|p paths Hp _ IH]; intros fuel w pending base Hfuel Hlog;
    (destruct fuel as [|fuel]; [cbn in Hfuel; lia|]).
  - cbn [list_text flat_map batch_loop gzgets]. split; [reflexivity|].
    exists []. split; [reflexivity|].
    cbn [map zip zip_with manifest flat_map]. rewrite app_nil_r.
    now apply append_file_log.
  - cbn [list_text flat_map] in Hfuel |- *. fold (list_text paths) in Hfuel |- *.
    rewrite <- app_assoc in Hfuel |- *. cbn [app] in Hfuel |- *.
    cbn [batch_loop]. rewrite gzgets_line by exact (proj1 Hp).
    rewrite (whole_path_buffer p Hp).
    rewrite length_app in Hfuel. cbn [length] in Hfuel.
    destruct (process_fastq gz_text w (string_of_list_ascii p)
                (string_of_list_ascii (out_name p)) N K)
      as [w1 n | w1 st |] eqn:E; [| |exact I].
    + pose proof (process_fastq_keeps_existing _ _ _ log _ _ _ _
                    (ex_intro _ base Hlog) E) as Hkeep.
      rewrite Hlog in Hkeep.
      pose proof (append_file_log log (pending ++ row (out_name p) n)
                    w1 base Hkeep) as Hlog'.
      specialize (IH fuel _ [] _ ltac:(lia) Hlog').
      destruct (batch_loop gz_text fuel log N K _ [] (list_text paths))
        as [w' st | w' st |]; [| |exact I].
      * destruct IH as (-> & totals & Hlen & Hdisk). split; [reflexivity|].
        exists (n :: totals). split; [cbn [length]; lia|].
        rewrite Hdisk. cbn [map zip zip_with manifest flat_map fst snd app].
        fold (manifest (zip (map out_name paths) totals)).
        rewrite <- app_assoc, <- bytes_of_app, <- app_assoc. reflexivity.
      * destruct IH as (-> & totals & Hlen & Hdisk). split; [reflexivity|].
        exists (n :: totals). split; [cbn [length]; lia|].
        rewrite Hdisk. cbn [map zip zip_with manifest flat_map fst snd app].
        fold (manifest (zip (map out_name paths) totals)).
        rewrite <- app_assoc, <- bytes_of_app, <- app_assoc. reflexivity.
    + apply process_fastq_exited in E as (-> & msg & ->).
      split; [reflexivity|]. exists []. split; [cbn [length]; lia|].
      cbn [zip zip_with manifest flat_map]. rewrite app_nil_r.
      apply append_file_log. exact Hlog.
Qed.

Lemma main_batch (w : world) (argv : list string) (log : string)
    (bytes : list Z) :
  batch_mode atoi w argv log bytes ->
  exists N K,
    main gz_text atoi w argv =
    batch_loop gz_text (S (length bytes)) log N K (store log [] w) header
      (plain_text bytes).
Proof.
  intros (o & lf & Hargc & Hparse & Hq & Hl & Hi & Hlist & Hnolog & Hrw).
  exists (Z.to_nat (num_reads o)), (Z.to_nat (kmer_length o)).
  unfold main. apply Nat.ltb_ge in Hargc. rewrite Hargc, Hparse, Hq, Hl, Hi.
  destruct (decide (is_Some (disk w !! log))) as [[x Hx] | _]; [congruence|].
  rewrite Hlist.
  destruct (decide (log ∈ read_only w)); [contradiction | reflexivity].
Qed.

(** X28. In batch mode over a list file of whole lines, one path per
    line, when [main] returns, its status is 0 and the log holds the
    header line followed by exactly one row per listed path, in order,
    each naming the base name of the path with [.bin] appended. *)
Theorem main_batch_manifest
    (w : world) (argv : list string) (log : string) (bytes : list Z)
    (paths : list (list ascii)) (w' : world) (status : nat) :
  batch_mode atoi w argv log bytes ->
  plain_text bytes = list_text paths -> Forall whole_path paths ->
  main gz_text atoi w argv = Returned w' status ->
  status = 0%nat /\
  exists totals : list nat,
    length totals = length paths /\
    disk w' !! log =
      Some (bytes_of
              (header ++ manifest (zip (map out_name paths) totals))).
Proof.
  intros Hmode Htext Hpaths Hrun.
  destruct (main_batch w argv log bytes Hmode) as (N & K & Hmain).
  rewrite Hmain, Htext in Hrun.
  pose proof (batch_loop_paths log N K paths Hpaths (S (length bytes))
                (store log [] w) header []) as H.
  rewrite Hrun in H. apply H.
  - rewrite <- Htext. unfold plain_text. rewrite length_map. lia.
  - unfold store. cbn [disk]. apply lookup_insert_eq.
Qed.

(** X29. In batch mode, when a listed file makes [process_fastq] end the
    process, the status is EXIT_FAILURE and the log is left with the
    header and the rows of the paths before that file, fewer rows than
    paths: the files after it are not processed. *)
Theorem main_batch_failure
    (w : world) (argv : list string) (log : string) (bytes : list Z)
    (paths : list (list ascii)) (w' : world) (status : Z) :
  batch_mode atoi w argv log bytes ->
  plain_text bytes = list_text paths -> Forall whole_path paths ->
  main gz_text atoi w argv = Exited w' status ->
  status = EXIT_FAILURE /\
  exists totals : list nat,
    (length totals < length paths)%nat /\
    disk w' !! log =
      Some (bytes_of
              (header ++ manifest (zip (map out_name paths) totals))).
Proof.
  intros Hmode Htext Hpaths Hrun.
  destruct (main_batch w argv log bytes Hmode) as (N & K & Hmain).
  rewrite Hmain, Htext in Hrun.
  pose proof (batch_loop_paths log N K paths Hpaths (S (length bytes))
                (store log [] w) header []) as H.
  rewrite Hrun in H. apply H.
  - rewrite <- Htext. unfold plain_text. rewrite length_map. lia.
  - unfold store. cbn [disk]. apply lookup_insert_eq.
Qed.

End BatchProperties.


Lemma sample_batch_mode (w : world) (bytes : list Z) :
  disk w !! "list.txt" = Some bytes -> disk w !! "log.csv" = None ->
  read_only w = ∅ ->
  Cli.batch_mode Cli.sample_atoi w Cli.sample_argv "log.csv" bytes.
Proof.
  intros Hlist Hlog Hro. eexists _, "list.txt".
  repeat split; try reflexivity; try assumption.
  - cbn. lia.
  - rewrite Hro. apply not_elem_of_empty.
Qed.

Lemma sample_whole_path (s : string) :
  bool_decide (LF ∉ list_ascii_of_string s) = true ->
  bool_decide (NUL ∉ list_ascii_of_string s) = true ->
  bool_decide (CR ∉ list_ascii_of_string s) = true ->
  (String.length s <? 1000)%nat = true ->
  Cli.whole_path (list_ascii_of_string s).
Proof.
  intros H1 H2 H3 H4. apply bool_decide_eq_true in H1, H2, H3.
  apply Nat.ltb_lt in H4.
  repeat split; try assumption.
  assert (length (list_ascii_of_string s) = String.length s) as ->.
  { clear. induction s as [|c s IH]; cbn; [reflexivity | now rewrite IH]. }
  unfold MAX_LINE_LENGTH. lia.
Qed.

Lemma main_batch_manifest_witness :
  Cli.batch_mode Cli.sample_atoi Cli.list_world Cli.sample_argv "log.csv"
    (bytes_of (Cli.list_text [list_ascii_of_string "reads.fq"])) /\
  plain_text (bytes_of (Cli.list_text [list_ascii_of_string "reads.fq"]))
    = Cli.list_text [list_ascii_of_string "reads.fq"] /\
  Forall Cli.whole_path [list_ascii_of_string "reads.fq"] /\
  Cli.main plain_text Cli.sample_atoi Cli.list_world Cli.sample_argv
    = Returned
        (Cli.append_file "log.csv" []
           (Cli.append_file "log.csv"
              (Cli.header ++
               Cli.row (Cli.out_name (list_ascii_of_string "reads.fq")) 32)
              (store "reads.fq.bin" (replicate 8 0x1B)
                 (store "log.csv" [] Cli.list_world)))) 0 /\
  0%nat = 0%nat /\
  exists totals : list nat,
    length totals = length [list_ascii_of_string "reads.fq"] /\
    disk (Cli.append_file "log.csv" []
            (Cli.append_file "log.csv"
               (Cli.header ++
                Cli.row (Cli.out_name (list_ascii_of_string "reads.fq")) 32)
               (store "reads.fq.bin" (replicate 8 0x1B)
                  (store "log.csv" [] Cli.list_world)))) !! "log.csv" =
      Some (bytes_of
              (Cli.header ++
               Cli.manifest
                 (zip (map Cli.out_name [list_ascii_of_string "reads.fq"])
                    totals))).
Proof.
  assert (H1 : Cli.batch_mode Cli.sample_atoi Cli.list_world Cli.sample_argv
                 "log.csv"
                 (bytes_of (Cli.list_text [list_ascii_of_string "reads.fq"])))
    by (apply sample_batch_mode; reflexivity).
  assert (H2 : plain_text
                 (bytes_of (Cli.list_text [list_ascii_of_string "reads.fq"]))
               = Cli.list_text [list_ascii_of_string "reads.fq"])
    by reflexivity.
  assert (H3 : Forall Cli.whole_path [list_ascii_of_string "reads.fq"])
    by (constructor; [apply sample_whole_path; reflexivity | constructor]).
  assert (H4 : Cli.main plain_text Cli.sample_atoi Cli.list_world
                 Cli.sample_argv
               = Returned
                   (Cli.append_file "log.csv" []
                      (Cli.append_file "log.csv"
                         (Cli.header ++
                          Cli.row
                            (Cli.out_name (list_ascii_of_string "reads.fq"))
                            32)
                         (store "reads.fq.bin" (replicate 8 0x1B)
                            (store "log.csv" [] Cli.list_world)))) 0)
    by (vm_compute; reflexivity).
  split; [exact H1|]. split; [exact H2|]. split; [exact H3|].
  split; [exact H4|].
  exact (main_batch_manifest plain_text Cli.sample_atoi _ _ _ _ _ _ _
           H1 H2 H3 H4).
Defined.

Lemma main_batch_failure_witness :
  Cli.batch_mode Cli.sample_atoi Cli.missing_world Cli.sample_argv "log.csv"
    (bytes_of (Cli.list_text [list_ascii_of_string "none.fq"])) /\
  plain_text (bytes_of (Cli.list_text [list_ascii_of_string "none.fq"]))
    = Cli.list_text [list_ascii_of_string "none.fq"] /\
  Forall Cli.whole_path [list_ascii_of_string "none.fq"] /\
  Cli.main plain_text Cli.sample_atoi Cli.missing_world Cli.sample_argv
    = Exited
        (Cli.append_file "log.csv" Cli.header
           (emit (perror "Failed to open FASTQ file")
              (store "log.csv" [] Cli.missing_world))) EXIT_FAILURE /\
  EXIT_FAILURE = EXIT_FAILURE /\
  exists totals : list nat,
    (length totals < length [list_ascii_of_string "none.fq"])%nat /\
    disk (Cli.append_file "log.csv" Cli.header
            (emit (perror "Failed to open FASTQ file")
               (store "log.csv" [] Cli.missing_world))) !! "log.csv" =
      Some (bytes_of
              (Cli.header ++
               Cli.manifest
                 (zip (map Cli.out_name [list_ascii_of_string "none.fq"])
                    totals))).
Proof.
  assert (H1 : Cli.batch_mode Cli.sample_atoi Cli.missing_world
                 Cli.sample_argv "log.csv"
                 (bytes_of (Cli.list_text [list_ascii_of_string "none.fq"])))
    by (apply sample_batch_mode; reflexivity).
  assert (H2 : plain_text
                 (bytes_of (Cli.list_text [list_ascii_of_string "none.fq"]))
               = Cli.list_text [list_ascii_of_string "none.fq"])
    by reflexivity.
  assert (H3 : Forall Cli.whole_path [list_ascii_of_string "none.fq"])
    by (constructor; [apply sample_whole_path; reflexivity | constructor]).
  assert (H4 : Cli.main plain_text Cli.sample_atoi Cli.missing_world
                 Cli.sample_argv
               = Exited
                   (Cli.append_file "log.csv" Cli.header
                      (emit (perror "Failed to open FASTQ file")
                         (store "log.csv" [] Cli.missing_world)))
                   EXIT_FAILURE)
    by (vm_compute; reflexivity).
  split; [exact H1|]. split; [exact H2|]. split; [exact H3|].
  split; [exact H4|].
  exact (main_batch_failure plain_text Cli.sample_atoi _ _ _ _ _ _ _
           H1 H2 H3 H4).
Defined.

Section MainProperties.
Import Cli.

Variable gz_text : list Z -> list ascii.
Variable atoi : string -> Z.

Lemma emit_lines (ls : list string) :
  forall w,
    let w' := fold_left (fun w l => emit (Stderr (l +:+ newline)) w) ls w in
    disk w' = disk w /\
    console w' = console w ++ map (fun l => Stderr (l +:+ newline)) ls.
Proof.
  induction ls as [|l ls IH]; intros w; cbn zeta.
  - cbn. now rewrite app_nil_r.
  - cbn [fold_left map].
    destruct (IH (emit (Stderr (l +:+ newline)) w)) as [Hd Hc].
    cbn zeta in Hd, Hc. rewrite Hd, Hc. cbn [emit disk console].
    now rewrite <- app_assoc.
Qed.

(** X30. A command line of fewer than three arguments, or one the option
    loop rejects, makes [main] print the nine usage lines on stderr and
    exit with EXIT_FAILURE; no file is read or written. *)
Theorem main_bad_command_line (w : world) (argv : list string) :
  (length argv < 3)%nat \/
  parse_args atoi (tail argv) initial_options = None ->
  exists w',
    main gz_text atoi w argv = Exited w' EXIT_FAILURE /\
    disk w' = disk w /\
    console w' =
      console w ++ map (fun l => Stderr (l +:+ newline)) usage_lines.
Proof.
  intros H.
  assert (main gz_text atoi w argv = error_usage w) as ->.
  { unfold main. destruct (Nat.ltb_spec (length argv) 3) as [_ | Hge];
      [reflexivity|].
    destruct H as [H | ->]; [lia | reflexivity]. }
  unfold error_usage. eexists. split; [reflexivity|].
  exact (emit_lines usage_lines w).
Qed.

End MainProperties.

Lemma main_bad_command_line_witness :
  ((length ["dna_array_fastq"; "-x"; "1"]%string < 3)%nat \/
   Cli.parse_args Cli.sample_atoi (tail ["dna_array_fastq"; "-x"; "1"]%string)
     Cli.initial_options = None) /\
  exists w',
    Cli.main plain_text Cli.sample_atoi good_world
      ["dna_array_fastq"; "-x"; "1"] = Exited w' EXIT_FAILURE /\
    disk w' = disk good_world /\
    console w' =
      console good_world
      ++ map (fun l => Stderr (l +:+ newline)) Cli.usage_lines.
Proof.
  assert (H : (length ["dna_array_fastq"; "-x"; "1"]%string < 3)%nat \/
              Cli.parse_args Cli.sample_atoi
                (tail ["dna_array_fastq"; "-x"; "1"]%string)
                Cli.initial_options = None)
    by (right; reflexivity).
  split; [exact H|].
  exact (main_bad_command_line plain_text Cli.sample_atoi good_world _ H).
Defined.

(** ** The batch loop ends within its fuel *)

Section BatchFuel.
Import Cli.

Variable gz_text : list Z -> list ascii.

Lemma batch_loop_fuel (fuel1 : nat) :
  forall (fuel2 : nat) (log : string) (N K : nat) (w : world)
         (pending stream : list ascii),
    (length stream < fuel1)%nat -> (length stream < fuel2)%nat ->
    batch_loop gz_text fuel1 log N K w pending stream =
    batch_loop gz_text fuel2 log N K w pending stream.
Proof.
  induction fuel1 as [|fuel1 IH];
    intros fuel2 log N K w pending stream H1 H2; [lia|].
  destruct fuel2 as [|fuel2]; [lia|]. cbn [batch_loop].
  destruct (gzgets MAX_LINE_LENGTH stream) as [[chunk rest]|] eqn:E;
    [|reflexivity].
  apply gzgets_length in E.
  destruct (process_fastq gz_text w _ _ N K); try reflexivity.
  apply IH; lia.
Qed.

End BatchFuel.

(** ** The loop stops at [num_reads] *)

Lemma fastq_loop_stops (K N : nat) (es : list entry) :
  Forall whole_entry es -> Forall (encodable K) es ->
  forall (fuel : nat) (seq0 : option (list ascii)) (enc : list Z)
         (total : nat) (junk : list ascii),
    (length (fastq_text es ++ junk) < fuel)%nat -> (total < N)%nat ->
    (N - total <= length (List.filter accepted es))%nat ->
    fastq_loop fuel K N (fastq_text es ++ junk) seq0 enc total =
    Finished (enc ++ flat_map (entry_codes K)
                       (take (N - total) (List.filter accepted es))).
Proof.
  intros Hwhole Henc.
  induction Hwhole as [|e es He _ IH];
    intros fuel seq0 enc total junk Hfuel Htot Hcount.
  - cbn [List.filter length] in Hcount. lia.
  - apply Forall_cons in Henc as [Hence Henc].
    destruct He as (Hid & Hseq & [HNUL HCR] & Hplus & Hqual).
    destruct fuel as [|fuel]; [lia|].
    cbn [fastq_text flat_map] in Hfuel |- *. fold (fastq_text es) in Hfuel |- *.
    rewrite <- app_assoc in Hfuel |- *.
    rewrite entry_text_app in Hfuel |- *. cbn [fastq_loop].
    rewrite gzgets_line by exact Hid.
    rewrite !gzgets_into_line by assumption.
    rewrite (c_str_plain _ HNUL (proj1 Hseq)).
    destruct (handle_record_line K (e_seq e) HCR (proj1 Hseq)) as [-> ->].
    assert (length (fastq_text es ++ junk) < fuel)%nat as Hfuel'.
    { repeat (rewrite length_app in Hfuel; cbn [length] in Hfuel).
      rewrite length_app. lia. }
    cbn [List.filter] in Hcount |- *. unfold accepted at 1 in Hcount.
    unfold accepted at 1. unfold encodable, accepted in Hence.
    assert (chomp (e_seq e) = e_seq e) as Hchomp.
    { unfold chomp.
      rewrite strcspn_all by (apply not_line_end; [exact HCR | exact (proj1 Hseq)]).
      apply firstn_all. }
    destruct (prefilter_skips (e_seq e)) eqn:Hskip; cbn [negb] in Hcount |- *.
    + assert (handle_record K (e_seq e) = Skipped) as ->.
      { apply handle_record_skipped. now rewrite Hchomp. }
      apply IH; assumption.
    + destruct (Hence eq_refl) as [HK Hvalid].
      assert (handle_record K (e_seq e) = Encoded (entry_codes K e)) as ->.
      { apply handle_record_encoded_iff. rewrite Hchomp.
        repeat split; assumption. }
      cbn [length] in Hcount.
      destruct (Nat.eqb_spec (S total) N) as [HN | HN].
      * replace (N - total)%nat with 1%nat by lia.
        cbn [take flat_map]. now rewrite take_0, app_nil_r.
      * replace (N - total)%nat with (S (N - S total)) by lia.
        cbn [take flat_map]. rewrite IH by (assumption || lia).
        now rewrite app_assoc.
Qed.

(** X2. The loop stops at the record that brings the count of encoded
    records to num_reads: on whole four-line records of which at least
    num_reads > 0 pass the pre-filter, the result is the codes of the
    first num_reads of them, and whatever follows in the input is never
    read; an invalid base there does not stop the process. *)
Theorem read_records_stops_at_num_reads
    (K N : nat) (es : list entry) (junk : list ascii) :
  Forall whole_entry es -> Forall (encodable K) es ->
  (0 < N <= length (List.filter accepted es))%nat ->
  read_records K N (fastq_text es ++ junk) =
  Finished (flat_map (entry_codes K) (take N (List.filter accepted es))).
Proof.
  intros Hwhole Henc [HN Hcount]. unfold read_records.
  rewrite (fastq_loop_stops K N es Hwhole Henc) by lia.
  cbn [app]. now rewrite Nat.sub_0_r.
Qed.

Lemma read_records_stops_at_num_reads_witness :
  Forall whole_entry sample_entries /\
  Forall (encodable 32) sample_entries /\
  (0 < 1 <= length (List.filter accepted sample_entries))%nat /\
  read_records 32 1
    (fastq_text sample_entries ++ fastq_record read_id lowercase_read) =
  Finished (flat_map (entry_codes 32)
              (take 1 (List.filter accepted sample_entries))).
Proof.
  assert (H1 : Forall whole_entry sample_entries).
  { unfold sample_entries, whole_entry, whole_line, plain_symbols.
    repeat constructor; cbn [e_id e_seq e_plus e_qual];
      try by_decide; vm_compute; lia. }
  assert (H2 : Forall (encodable 32) sample_entries).
  { unfold sample_entries, encodable.
    repeat constructor;
      match goal with
      | H : accepted _ = true |- _ => vm_compute in H; discriminate
      end. }
  assert (H3 : (0 < 1 <= length (List.filter accepted sample_entries))%nat)
    by (vm_compute; lia).
  split; [exact H1|]. split; [exact H2|]. split; [exact H3|].
  exact (read_records_stops_at_num_reads 32 1 sample_entries _ H1 H2 H3).
Defined.
